(** * Shallow embedding of [watchdog.py] (F1re Claude Watchdog)

    The monitor is a single asynchronous loop.  Every call to the outside
    world ([subprocess.run], [requests.post], the agent [query],
    [asyncio.sleep]) is modelled as an event appended to a trace; the answer
    of the outside world is an oracle passed in as an argument.  Python
    exceptions of such calls are explicit results ([Raised]), and the
    [try]/[except] blocks of the source turn them into ordinary values. *)

From Stdlib Require Import ZArith Lia.
From stdpp Require Import base list gmap strings.
From Stdlib Require Import Ascii String.

Open Scope Z_scope.

(* ------------------------------------------------------------------ *)
(** ** Python string helpers used by the source *)

Module PyStr.

(** [needle in haystack] for Python strings. *)
Fixpoint contains (needle hay : string) : bool :=
  if String.prefix needle hay then true
  else match hay with
       | EmptyString => false
       | String _ rest => contains needle rest
       end.

(** Characters removed by [str.strip()] and used as separators by
    [str.split()], for text of ASCII characters. *)
Definition is_ws (c : ascii) : bool :=
  match nat_of_ascii c with
  | 32 | 9 | 10 | 11 | 12 | 13 | 28 | 29 | 30 | 31 => true
  | _ => false
  end%nat.

Fixpoint drop_ws (l : list ascii) : list ascii :=
  match l with
  | c :: r => if is_ws c then drop_ws r else l
  | [] => []
  end.

(** [s.strip()] *)
Definition strip (s : string) : string :=
  string_of_list_ascii
    (rev (drop_ws (rev (drop_ws (list_ascii_of_string s))))).

(** [s.split()]: maximal runs of non-whitespace characters. *)
Fixpoint split_ws_aux (l : list ascii) (cur : list ascii) : list string :=
  match l with
  | [] => if cur then [] else [string_of_list_ascii (rev cur)]
  | c :: r =>
      if is_ws c
      then (if cur then split_ws_aux r []
            else string_of_list_ascii (rev cur) :: split_ws_aux r [])
      else split_ws_aux r (c :: cur)
  end.

Definition split_ws (s : string) : list string :=
  split_ws_aux (list_ascii_of_string s) [].

(** The line boundaries of [str.splitlines] other than ["\r"]: ["\n"],
    ["\x0b"], ["\x0c"], ["\x1c"], ["\x1d"] and ["\x1e"]. *)
Definition is_line_break (c : ascii) : bool :=
  match nat_of_ascii c with
  | 10 | 11 | 12 | 28 | 29 | 30 => true
  | _ => false
  end%nat.

(** [s.splitlines()]; ["\r\n"] is one line break, and a trailing line
    break does not produce an empty last line. *)
Fixpoint splitlines_aux (l : list ascii) (cur : list ascii) : list string :=
  match l with
  | [] => if cur then [] else [string_of_list_ascii (rev cur)]
  | c :: r =>
      if is_line_break c
      then string_of_list_ascii (rev cur) :: splitlines_aux r []
      else if (nat_of_ascii c =? 13)%nat
      then match r with
           | c' :: r' =>
               if (nat_of_ascii c' =? 10)%nat
               then string_of_list_ascii (rev cur) :: splitlines_aux r' []
               else string_of_list_ascii (rev cur) :: splitlines_aux r []
           | [] => [string_of_list_ascii (rev cur)]
           end
      else splitlines_aux r (c :: cur)
  end.

Definition splitlines (s : string) : list string :=
  splitlines_aux (list_ascii_of_string s) [].

End PyStr.

(* ------------------------------------------------------------------ *)
(** ** Configuration *)

(** A service descriptor: the optional keys of one entry of
    [CONFIG["services"]]; [None] means the key is absent. *)
Record service_config := {
  launchd_label : option string;
  systemd_unit : option string;
  port : option Z;
  log_file : option string;
  health_check_command : option string;
  restart_command : option string
}.

Definition empty_service : service_config :=
  {| launchd_label := None; systemd_unit := None; port := None;
     log_file := None; health_check_command := None;
     restart_command := None |}.

(** A Python dict read from JSON, in its insertion order; [d[k]] and
    [k in d] look up the (unique) entry of key [k]. *)
Fixpoint py_lookup {V} (k : string) (d : list (string * V)) : option V :=
  match d with
  | [] => None
  | (k', v) :: rest => if String.eqb k k' then Some v else py_lookup k rest
  end.

(** One entry of [CONFIG["repositories"]]. *)
Record repo_config := {
  path : string;
  branch : option string;
  post_update_commands : list string;
  restart_services : list string
}.

(** [repo_config.get('branch', 'main')] *)
Definition branch_or_main (r : repo_config) : string :=
  match branch r with Some b => b | None => "main" end.

(** [TELEGRAM_BOT_TOKEN] and [TELEGRAM_CHAT_ID]. *)
Record telegram := {
  bot_token : string;
  chat_id : string
}.

(** [TELEGRAM_BOT_TOKEN and TELEGRAM_CHAT_ID] (empty strings are false). *)
Definition creds_set (tg : telegram) : bool :=
  negb (String.eqb (bot_token tg) "") && negb (String.eqb (chat_id tg) "").

(* ------------------------------------------------------------------ *)
(** ** Subprocesses *)

(** The commands the watchdog runs. *)
Inductive command :=
  | CmdShell (cmd : string)                      (* shell=True *)
  | CmdLaunchctlList                             (* launchctl list *)
  | CmdLaunchctlKickstart (uid : Z) (label : string) (* launchctl kickstart -k gui/<uid>/<label> *)
  | CmdSystemctlIsActive (unit : string)         (* systemctl is-active <unit> *)
  | CmdSystemctlRestart (unit : string)          (* systemctl restart <unit> *)
  | CmdLsof (port : Z)                           (* lsof -i :<port> -P -n *)
  | CmdGitFetch (cwd : string)                   (* git fetch origin *)
  | CmdGitRevParse (cwd : string) (rev : string) (* git rev-parse <rev> *)
  | CmdGitAbbrevHead (cwd : string)              (* git rev-parse --abbrev-ref HEAD *)
  | CmdGitLog (cwd : string) (range : string).   (* git log --oneline <range> *)

(** What a [subprocess.run] call does: the process exits with a return
    code and a standard output, or the call raises (binary missing,
    [TimeoutExpired], ...). *)
Inductive proc_outcome :=
  | Exited (returncode : Z) (stdout : string)
  | Raised (err : string).

(** The outside world, as seen by one phase of the program. *)
Definition env := command -> proc_outcome.

(** [subprocess.run(..., check=True)]: a non-zero exit raises
    [CalledProcessError]. *)
Definition run_checked (e : env) (c : command) : proc_outcome :=
  match e c with
  | Exited 0 out => Exited 0 out
  | Exited _ _ => Raised "CalledProcessError"
  | Raised m => Raised m
  end.

(* ------------------------------------------------------------------ *)
(** ** Events of a run *)

(** The assignment of a value to [restart_counts[service]], a probe, a
    restart, a dispatch to the agent, a sleep, an HTTP POST, ... *)
Inductive post_kind :=
  | PostTelegramTool (message : string)
  | PostServiceFallback (service : string) (err : string)
  | PostUpdateFallback (repo : string) (err : string).

Inductive event :=
  | EvRun (c : command) (timeout : option Z)
  | EvSleep (seconds : Z)
  | EvPost (k : post_kind)
  | EvProbe (service : string)
  | EvRestart (service : string)
  | EvSetCount (service : string) (value : nat)
  | EvDispatch (service : string)
  | EvDispatchUpdate (repo : string)
  | EvSetLastCheck (now : Z)
  | EvLogAgentResult (r : string)
  | EvLogAgentText (t : string)
  | EvLogAgentError (err : string)
  | EvLogRaceIgnored (err : string)
  | EvLogNoRestartMethod (service : string)
  | EvLogRestartFailed (err : string)
  | EvLogRepoMissing (repo : string)
  | EvLogRepoUpToDate (repo : string)
  | EvLogRepoError (repo : string) (err : string).

(* ------------------------------------------------------------------ *)
(** ** [check_service_health] *)

(** The launchd part: scan the output of [launchctl list] for the first
    line containing the label; [parts[0] == "-" or parts[1] != "0"] makes
    the service unhealthy; an [IndexError] is caught by the bare [except]
    and also yields [False]; the [for ... else] yields [False] when no line
    matches.  [Some b] is an early [return b]; [None] falls through. *)
Fixpoint launchd_scan (label : string) (lines : list string) : option bool :=
  match lines with
  | [] => Some false
  | line :: rest =>
      if PyStr.contains label line then
        let parts := PyStr.split_ws line in
        match parts !! 0%nat with
        | None => Some false
        | Some p0 =>
            if String.eqb p0 "-" then Some false
            else match parts !! 1%nat with
                 | None => Some false
                 | Some p1 => if String.eqb p1 "0" then None else Some false
                 end
        end
      else launchd_scan label rest
  end.

(** [check_service_health(service)]: the verdict and the subprocess
    calls made, with their [timeout] argument. *)
Definition check_service_health (e : env) (services : list (string * service_config))
    (service : string) : bool * list event :=
  match py_lookup service services with
  | None => (false, [])
  | Some config =>
  match health_check_command config with
  | Some cmd =>
      let c := CmdShell cmd in
      match e c with
      | Exited rc _ => (Z.eqb rc 0, [EvRun c (Some 10)])
      | Raised _ => (false, [EvRun c (Some 10)])
      end
  | None =>
  (* launchd *)
  let r1 : option bool * list event :=
    match launchd_label config with
    | None => (None, [])
    | Some label =>
        ( match e CmdLaunchctlList with
          | Exited _ out => launchd_scan label (PyStr.splitlines out)
          | Raised _ => Some false
          end, [EvRun CmdLaunchctlList None])
    end in
  match r1 with
  | (Some b, ev1) => (b, ev1)
  | (None, ev1) =>
  (* systemd *)
  let r2 : option bool * list event :=
    match systemd_unit config with
    | None => (None, [])
    | Some u =>
        let c := CmdSystemctlIsActive u in
        ( match e c with
          | Exited _ out =>
              if String.eqb (PyStr.strip out) "active" then None else Some false
          | Raised _ => Some false
          end, [EvRun c None])
    end in
  match r2 with
  | (Some b, ev2) => (b, ev1 ++ ev2)
  | (None, ev2) =>
  (* port *)
  match port config with
  | None => (true, ev1 ++ ev2)
  | Some p =>
      let c := CmdLsof p in
      match e c with
      | Exited _ out =>
          (PyStr.contains "LISTEN" out, ev1 ++ ev2 ++ [EvRun c None])
      | Raised _ => (false, ev1 ++ ev2 ++ [EvRun c None])
      end
  end
  end
  end
  end
  end.

(* ------------------------------------------------------------------ *)
(** ** [simple_restart] *)

(** The restart method: [launchd_label], else [systemd_unit], else
    [restart_command], else none. *)
Definition restart_method (uid : Z) (config : service_config) : option command :=
  match launchd_label config with
  | Some label => Some (CmdLaunchctlKickstart uid label)
  | None =>
      match systemd_unit config with
      | Some u => Some (CmdSystemctlRestart u)
      | None =>
          match restart_command config with
          | Some rc => Some (CmdShell rc)
          | None => None
          end
      end
  end.

(** [simple_restart(service)]: the restart command runs with [check=True]
    in the world [e]; the re-probe after [time.sleep(5)] sees the world
    [e_settled]. *)
Definition simple_restart (uid : Z) (e e_settled : env)
    (services : list (string * service_config)) (service : string)
    : bool * list event :=
  match py_lookup service services with
  | None => (false, [])
  | Some config =>
      match restart_method uid config with
      | None => (false, [EvLogNoRestartMethod service])
      | Some c =>
          match run_checked e c with
          | Exited _ _ =>
              let '(ok, evs) := check_service_health e_settled services service in
              (ok, [EvRun c None; EvSleep 5] ++ evs)
          | Raised m => (false, [EvRun c None; EvLogRestartFailed m])
          end
      end
  end.

(* ------------------------------------------------------------------ *)
(** ** The agent: [invoke_agent] and [invoke_update_agent] *)

(** A message yielded by [query(...)]: it has a [result] attribute, a
    [text] attribute, or neither. *)
Inductive agent_msg :=
  | MsgResult (r : string)
  | MsgText (t : string)
  | MsgOther.

(** A run of the agent: the messages the iteration yields, then either
    the end of the iteration ([None]) or an exception ([Some err], [err]
    being [str(e)]). *)
Record agent_run := {
  agent_messages : list agent_msg;
  agent_error : option string
}.

(** The body of [async for message in query(...)]. *)
Definition log_agent_msg (m : agent_msg) : list event :=
  match m with
  | MsgResult r => [EvLogAgentResult r]
  | MsgText t => [EvLogAgentText (substring 0 100 t)]
  | MsgOther => []
  end.

(** [invoke_agent(service)] *)
Definition invoke_agent (tg : telegram) (service : string) (run : agent_run)
    : list event :=
  EvDispatch service ::
  flat_map log_agent_msg (agent_messages run) ++
  match agent_error run with
  | None => []
  | Some err =>
      EvLogAgentError err ::
      (if creds_set tg then [EvPost (PostServiceFallback service err)] else [])
  end.

(** The recognised SDK race of [invoke_update_agent]. *)
Definition is_sdk_race (err : string) : bool :=
  PyStr.contains "ProcessTransport is not ready" err
  || PyStr.contains "TaskGroup" err.

(** [invoke_update_agent(repo_name, repo_config)] *)
Definition invoke_update_agent (tg : telegram) (repo_name : string)
    (run : agent_run) : list event :=
  EvDispatchUpdate repo_name ::
  flat_map log_agent_msg (agent_messages run) ++
  match agent_error run with
  | None => []
  | Some err =>
      if is_sdk_race err then [EvLogRaceIgnored (substring 0 100 err)]
      else EvLogAgentError err ::
           (if creds_set tg then [EvPost (PostUpdateFallback repo_name err)]
            else [])
  end.

(* ------------------------------------------------------------------ *)
(** ** The tools: [send_telegram] and [check_git_updates] *)

(** The content of a tool result: a text, or the JSON object of
    [check_git_updates]. *)
Inductive tool_content :=
  | TCText (s : string)
  | TCUpdateInfo (repo_name repo_path current_branch : string)
      (has_updates : bool) (local_commit remote_commit new_commits : string).

Record tool_result := {
  content : tool_content;
  is_error : bool
}.

(** What [requests.post] does: a response with [response.ok] true or
    false, or an exception. *)
Inductive http_outcome :=
  | HttpOk
  | HttpNotOk (text : string)
  | HttpRaised (err : string).

(** [send_telegram_tool({"message": message})]: the result and the HTTP
    requests made. *)
Definition send_telegram_tool (tg : telegram) (message : string)
    (http : http_outcome) : tool_result * list event :=
  if negb (creds_set tg) then
    ({| content := TCText "Telegram not configured (missing token or chat ID)";
        is_error := true |}, [])
  else
    ( match http with
      | HttpOk => {| content := TCText "Message sent successfully"; is_error := false |}
      | HttpNotOk t => {| content := TCText ("Failed to send: " ++ t); is_error := true |}
      | HttpRaised e => {| content := TCText ("Error sending telegram: " ++ e); is_error := true |}
      end, [EvPost (PostTelegramTool message)]).

(** Python code that may raise: a value, or an exception. *)
Inductive pyres (A : Type) :=
  | POk (a : A)
  | PExc (msg : string).
Arguments POk {A} a.
Arguments PExc {A} msg.

Global Instance pyres_ret : MRet pyres := fun _ a => POk a.
Global Instance pyres_bind : MBind pyres := fun _ _ k r =>
  match r with POk a => k a | PExc m => PExc m end.

(** [subprocess.run(..., check=True, text=True).stdout.strip()] *)
Definition run_stdout_checked (e : env) (c : command) : pyres string :=
  match run_checked e c with
  | Exited _ out => POk (PyStr.strip out)
  | Raised m => PExc m
  end.

(** [subprocess.run(..., text=True).stdout.strip()] (no [check]) *)
Definition run_stdout (e : env) (c : command) : pyres string :=
  match e c with
  | Exited _ out => POk (PyStr.strip out)
  | Raised m => PExc m
  end.

(** [str(list_of_names)] for names without quote or backslash characters:
    ['a', 'b'] . *)
Definition py_str_list_repr (names : list string) : string :=
  ("[" ++ String.concat ", " (map (fun n : string => "'" ++ n ++ "'")%string names) ++ "]")%string.

(** [check_git_updates_tool({"repo_name": repo_name})]; [exists p] is
    [Path(p).exists()], and the path is shown as configured (a path
    already in the normal form of [str(Path(p))]). *)
Definition check_git_updates_tool (repositories : list (string * repo_config))
    (exists_path : string -> bool) (e : env) (repo_name : string) : tool_result :=
  match py_lookup repo_name repositories with
  | None => {| content := TCText ("Unknown repository: " ++ repo_name ++ ". Available: "
                                   ++ py_str_list_repr (map fst repositories));
               is_error := true |}
  | Some repo =>
      let p := path repo in
      if negb (exists_path p) then
        {| content := TCText ("Repository path does not exist: " ++ p); is_error := true |}
      else
        let body : pyres tool_result :=
          _ ← run_stdout_checked e (CmdGitFetch p);
          current_branch ← run_stdout_checked e (CmdGitAbbrevHead p);
          local_commit ← run_stdout_checked e (CmdGitRevParse p "HEAD");
          remote_commit ← run_stdout_checked e
                            (CmdGitRevParse p ("origin/" ++ branch_or_main repo));
          let has_updates := negb (String.eqb local_commit remote_commit) in
          new_commits ← (if has_updates
                         then run_stdout e (CmdGitLog p (local_commit ++ ".." ++ remote_commit))
                         else mret "");
          mret {| content := TCUpdateInfo repo_name p current_branch has_updates
                              (substring 0 7 local_commit) (substring 0 7 remote_commit)
                              new_commits;
                  is_error := false |} in
        match body with
        | POk r => r
        | PExc m => {| content := TCText ("Error checking for updates: " ++ m); is_error := true |}
        end
  end.

(* ------------------------------------------------------------------ *)
(** ** [monitor_loop] *)

(** The values [monitor_loop] reads from [CONFIG] once, before the loop. *)
Record loop_config := {
  check_interval : Z;
  max_simple_restarts : nat;
  update_check_interval : Z;
  services : list (string * service_config);
  repositories : list (string * repo_config);
  tg : telegram;
  uid : Z                                   (* os.getuid() *)
}.

(** What the world does to one repository during one update check. *)
Record repo_obs := {
  path_exists : bool;
  git : env;
  update_agent : agent_run
}.

(** What the world does during one iteration of [while True]: the
    subprocesses of the probes, of the restarts and of the re-probes after
    settling, the agent runs, [time.time()] after the service pass, and the
    repositories. *)
Record tick_obs := {
  probe_env : env;
  restart_env : env;
  settled_env : env;
  agent : string -> agent_run;
  now : Z;
  repo : string -> repo_obs
}.

(** The loop's mutable state: [restart_counts] and [last_update_check]. *)
Record wstate := {
  restart_counts : gmap string nat;
  last_update_check : Z
}.

(** One service of the [for service in services] pass, given
    [restart_counts[service]] = [cnt]: the new count and the events. *)
Definition service_step (cfg : loop_config) (o : tick_obs) (service : string)
    (cnt : nat) : nat * list event :=
  let '(healthy, probe_evs) :=
    check_service_health (probe_env o) (services cfg) service in
  let pre := EvProbe service :: probe_evs in
  if healthy then
    if (0 <? cnt)%nat then (0%nat, pre ++ [EvSetCount service 0])
    else (cnt, pre)
  else
    let c := S cnt in
    let pre := pre ++ [EvSetCount service c] in
    if (c <=? max_simple_restarts cfg)%nat then
      let '(ok, restart_evs) :=
        simple_restart (uid cfg) (restart_env o) (settled_env o) (services cfg) service in
      if ok then (0%nat, pre ++ EvRestart service :: restart_evs ++ [EvSetCount service 0])
      else (c, pre ++ EvRestart service :: restart_evs)
    else
      (0%nat, pre ++ invoke_agent (tg cfg) service (agent o service)
                  ++ [EvSetCount service 0; EvSleep 300]).

(** [restart_counts[service]]; every configured service has a key. *)
Definition count_of (rc : gmap string nat) (service : string) : nat :=
  default 0%nat (rc !! service).

(** The pass over the services, in the order of the configuration. *)
Fixpoint service_pass (cfg : loop_config) (o : tick_obs) (svcs : list string)
    (rc : gmap string nat) : gmap string nat * list event :=
  match svcs with
  | [] => (rc, [])
  | s :: rest =>
      let '(c', ev) := service_step cfg o s (count_of rc s) in
      let '(rc', evs) := service_pass cfg o rest (<[s := c']> rc) in
      (rc', ev ++ evs)
  end.

(** One repository of the update check (the body of the [try]). *)
Definition repo_check (tg : telegram) (repo_name : string) (rcfg : repo_config)
    (ro : repo_obs) : list event :=
  if negb (path_exists ro) then [EvLogRepoMissing repo_name]
  else
    let p := path rcfg in
    let fetch := CmdGitFetch p in
    let rp_local := CmdGitRevParse p "HEAD" in
    let rp_remote := CmdGitRevParse p ("origin/" ++ branch_or_main rcfg) in
    match git ro fetch with
    | Raised m => [EvRun fetch (Some 30); EvLogRepoError repo_name m]
    | Exited _ _ =>            (* the return code of the fetch is not looked at *)
      match run_stdout (git ro) rp_local with
      | PExc m => [EvRun fetch (Some 30); EvRun rp_local None; EvLogRepoError repo_name m]
      | POk local_commit =>
        match run_stdout (git ro) rp_remote with
        | PExc m => [EvRun fetch (Some 30); EvRun rp_local None; EvRun rp_remote None;
                     EvLogRepoError repo_name m]
        | POk remote_commit =>
          [EvRun fetch (Some 30); EvRun rp_local None; EvRun rp_remote None] ++
          if negb (String.eqb local_commit remote_commit)
          then invoke_update_agent tg repo_name (update_agent ro)
          else [EvLogRepoUpToDate repo_name]
        end
      end
    end.

(** [for repo_name, repo_config in repositories.items()] *)
Definition repo_pass (cfg : loop_config) (o : tick_obs) : list event :=
  flat_map (fun '(name, rcfg) => repo_check (tg cfg) name rcfg (repo o name))
           (repositories cfg).

(** [repositories and (current_time - last_update_check) >= update_check_interval] *)
Definition update_due (cfg : loop_config) (last t : Z) : bool :=
  match repositories cfg with
  | [] => false
  | _ => Z.leb (update_check_interval cfg) (t - last)
  end.

(** One iteration of [while True]. *)
Definition tick (cfg : loop_config) (o : tick_obs) (st : wstate) : wstate * list event :=
  let '(rc', ev1) := service_pass cfg o (map fst (services cfg)) (restart_counts st) in
  let current_time := now o in
  if update_due cfg (last_update_check st) current_time then
    ({| restart_counts := rc'; last_update_check := current_time |},
     ev1 ++ [EvSetLastCheck current_time] ++ repo_pass cfg o
         ++ [EvSleep (check_interval cfg)])
  else
    ({| restart_counts := rc'; last_update_check := last_update_check st |},
     ev1 ++ [EvSleep (check_interval cfg)]).

(** The state on entry of the loop: [restart_counts = {service: 0 ...}],
    [last_update_check = 0]. *)
Definition init_state (cfg : loop_config) : wstate :=
  {| restart_counts := list_to_map (map (fun s => (s.1, 0%nat)) (services cfg));
     last_update_check := 0 |}.

(** Several iterations; the events of each iteration separately. *)
Fixpoint run_ticks (cfg : loop_config) (os : list tick_obs) (st : wstate)
    : wstate * list (list event) :=
  match os with
  | [] => (st, [])
  | o :: rest =>
      let '(st1, ev) := tick cfg o st in
      let '(st2, evs) := run_ticks cfg rest st1 in
      (st2, ev :: evs)
  end.

(* ------------------------------------------------------------------ *)
(** ** The tool [get_service_info] *)

(** JSON values of the diagnostics dict. *)
#[warnings="-register-all"]
Inductive jvalue :=
  | JStr (s : string)
  | JBool (b : bool)
  | JInt (z : Z)
  | JObj (fields : list (string * jvalue)).

(** [d[k] = v] on a Python dict kept in insertion order: an existing key
    keeps its position, a new key is appended. *)
Fixpoint dict_set (k : string) (v : jvalue) (d : list (string * jvalue))
    : list (string * jvalue) :=
  match d with
  | [] => [(k, v)]
  | (k', v') :: r => if String.eqb k k' then (k, v) :: r else (k', v') :: dict_set k v r
  end.

(** [str(IndexError)] *)
Definition index_error : string := "list index out of range".

(** The launchd loop of [get_service_info_tool]: [pid] is stored before
    [parts[1]] is read, so an [IndexError] there leaves [pid] in the dict.
    The second component is the exception that escapes the loop. *)
Fixpoint diag_scan (label : string) (lines : list string) (d : list (string * jvalue))
    : list (string * jvalue) * option string :=
  match lines with
  | [] => (d, None)
  | line :: rest =>
      if PyStr.contains label line then
        let parts := PyStr.split_ws line in
        match parts !! 0%nat with
        | None => (d, Some index_error)
        | Some p0 =>
            let d := dict_set "pid" (JStr p0) d in
            match parts !! 1%nat with
            | None => (d, Some index_error)
            | Some p1 => (dict_set "exit_status" (JStr p1) d, None)
            end
        end
      else diag_scan label rest d
  end.

(** The outside calls of [get_service_info_tool]. *)
Inductive info_call :=
  | ICall (c : command) (timeout : option Z)
  | ISystemctlStatus (unit : string)            (* systemctl status <unit> *)
  | IReadLog (path : string).                   (* open(log_file).readlines() *)

(** The result of the tool: the "Unknown service" error (with
    [list(services.keys())]), or [json.dumps(diagnostics)]. *)
Inductive info_result :=
  | InfoUnknown (service : string) (available : list string)
  | InfoOk (diagnostics : list (string * jvalue)).

(** [get_service_info_tool({"service": service})]; [status u] is what
    [systemctl status u] does, [read_lines p] what [open(p).readlines()]
    does, [exists_path p] is [Path(p).exists()]. *)
Definition get_service_info_tool (e : env) (status : string -> proc_outcome)
    (exists_path : string -> bool) (read_lines : string -> pyres (list string))
    (services : list (string * service_config)) (service : string)
    : info_result * list info_call :=
  match py_lookup service services with
  | None => (InfoUnknown service (map fst services), [])
  | Some config =>
      let d0 := [("service", JStr service)] in
      (* launchd *)
      let '(d1, c1) :=
        match launchd_label config with
        | None => (d0, [])
        | Some label =>
            ( match e CmdLaunchctlList with
              | Exited _ out =>
                  let '(d, err) := diag_scan label (PyStr.splitlines out) d0 in
                  match err with
                  | None => d
                  | Some m => dict_set "launchd_error" (JStr m) d
                  end
              | Raised m => dict_set "launchd_error" (JStr m) d0
              end, [ICall CmdLaunchctlList None])
        end in
      (* systemd *)
      let '(d2, c2) :=
        match systemd_unit config with
        | None => (d1, [])
        | Some u =>
            ( match status u with
              | Exited _ out => dict_set "systemd_status" (JStr (substring 0 500 out)) d1
              | Raised m => dict_set "systemd_error" (JStr m) d1
              end, [ISystemctlStatus u])
        end in
      (* port *)
      let '(d3, c3) :=
        match port config with
        | None => (d2, [])
        | Some p =>
            ( match e (CmdLsof p) with
              | Exited _ out =>
                  dict_set "port_listening" (JBool (PyStr.contains "LISTEN" out)) d2
              | Raised m => dict_set "port_error" (JStr m) d2
              end, [ICall (CmdLsof p) None])
        end in
      (* recent logs: "".join(lines[-30:]) *)
      let '(d4, c4) :=
        match log_file config with
        | None => (d3, [])
        | Some f =>
            if exists_path f then
              ( match read_lines f with
                | POk lines =>
                    dict_set "recent_errors"
                      (JStr (String.concat "" (skipn (List.length lines - 30) lines))) d3
                | PExc m => dict_set "log_error" (JStr m) d3
                end, [IReadLog f])
            else (d3, [])
        end in
      (* custom health check command *)
      let '(d5, c5) :=
        match health_check_command config with
        | None => (d4, [])
        | Some cmd =>
            ( match e (CmdShell cmd) with
              | Exited rc out =>
                  dict_set "health_check"
                    (JObj [("exit_code", JInt rc); ("output", JStr (substring 0 500 out))]) d4
              | Raised m => dict_set "health_check_error" (JStr m) d4
              end, [ICall (CmdShell cmd) (Some 10)])
        end in
      (InfoOk d5, c1 ++ c2 ++ c3 ++ c4 ++ c5)
  end.

(* ------------------------------------------------------------------ *)
(** ** [load_config] *)

(** The keys of the decoded [config.json] that the program reads; [None]
    means the key is absent. *)
Record py_config := {
  cfg_check_interval : option Z;
  cfg_max_simple_restarts : option nat;
  cfg_update_check_interval : option Z;
  cfg_services : option (list (string * service_config));
  cfg_repositories : option (list (string * repo_config));
  cfg_telegram_bot_token : option string;
  cfg_telegram_chat_id : option string
}.

Definition DEFAULT_CONFIG : py_config :=
  {| cfg_check_interval := Some 30;
     cfg_max_simple_restarts := Some 3%nat;
     cfg_update_check_interval := Some 14400;
     cfg_services := Some [];
     cfg_repositories := Some [];
     cfg_telegram_bot_token := None;
     cfg_telegram_chat_id := None |}.

Inductive load_event :=
  | LLoaded
  | LLoadFailed (err : string)
  | LNoConfigFile
  | LNoBotToken
  | LNoChatId.

(** [load_config()]: [config_exists] is [config_file.exists()], [read] what
    [json.load(open(config_file))] does; [env_token] and [env_chat] are the
    environment variables [TELEGRAM_BOT_TOKEN] and [TELEGRAM_CHAT_ID]
    ([None] when unset).  The result is [CONFIG], the two credentials and
    the log lines. *)
Definition load_config (config_exists : bool) (read : pyres py_config)
    (env_token env_chat : option string) : py_config * telegram * list load_event :=
  let '(c, ev) :=
    if config_exists then
      match read with
      | POk c => (c, [LLoaded])
      | PExc m => (DEFAULT_CONFIG, [LLoadFailed m])
      end
    else (DEFAULT_CONFIG, [LNoConfigFile]) in
  (* os.getenv(name, CONFIG.get(key, "")) *)
  let token := match env_token with
               | Some v => v
               | None => default "" (cfg_telegram_bot_token c)
               end in
  let chat := match env_chat with
              | Some v => v
              | None => default "" (cfg_telegram_chat_id c)
              end in
  (c, {| bot_token := token; chat_id := chat |},
   ev ++ (if String.eqb token "" then [LNoBotToken] else [])
      ++ (if String.eqb chat "" then [LNoChatId] else [])).

(* ------------------------------------------------------------------ *)
(** ** The start of [monitor_loop] *)

(** The lines of the startup message ([parts]), one constructor per
    f-string of the source. *)
Inductive start_line :=
  | SLTitle                         (* the bold "Watchdog Started" title *)
  | SLBlank                         (* "" *)
  | SLMonitoring (n : nat)          (* f"... Monitoring {len(services)} service(s):" *)
  | SLItem (name : string)          (* f"  * {name}" *)
  | SLCheckInterval (seconds : Z)   (* f"... Check interval: {...}s" *)
  | SLMaxRestarts (n : nat)         (* f"... Max restarts: {...}" *)
  | SLAutoUpdating (n : nat)        (* f"... Auto-updating {len(repositories)} repository(s):" *)
  | SLUpdateCheck (seconds : Z)     (* f"... Update check: every {.../3600:.1f}h" *)
  | SLReady.                        (* "... Ready!" *)

Inductive start_event :=
  | SLogStarted
  | SLogNothingConfigured
  | SLogMonitoring (names : list string)
  | SPostStartup (lines : list start_line) (timeout : Z)
  | SLogStartupSent
  | SLogStartupFailed (err : string)
  | SLogWillCheck (n : nat) (interval : Z).

(** [CONFIG.get(key, default)] for the keys of the loop. *)
Definition conf_services (c : py_config) := default [] (cfg_services c).
Definition conf_repositories (c : py_config) := default [] (cfg_repositories c).
Definition conf_check_interval (c : py_config) := default 30 (cfg_check_interval c).
Definition conf_max_simple_restarts (c : py_config) :=
  default 3%nat (cfg_max_simple_restarts c).
Definition conf_update_check_interval (c : py_config) :=
  default 14400 (cfg_update_check_interval c).

(** The list [parts] of the startup message. *)
Definition startup_lines (c : py_config) : list start_line :=
  let svcs := conf_services c in
  let repos := conf_repositories c in
  [SLTitle; SLBlank] ++
  (match svcs with
   | [] => []
   | _ => [SLMonitoring (List.length svcs)] ++ map (fun p => SLItem p.1) svcs ++
          [SLBlank; SLCheckInterval (conf_check_interval c);
           SLMaxRestarts (conf_max_simple_restarts c)]
   end) ++
  (match repos with
   | [] => []
   | _ => (match svcs with [] => [] | _ => [SLBlank] end) ++
          [SLAutoUpdating (List.length repos)] ++ map (fun p => SLItem p.1) repos ++
          [SLBlank; SLUpdateCheck (conf_update_check_interval c)]
   end) ++
  [SLBlank; SLReady].

(** [monitor_loop()] up to the [while True]: the events before the loop,
    and the configuration the loop runs with ([None] when the function
    returns at once).  [http] is what the startup [requests.post] does; the
    response itself is not looked at, only an exception is. *)
Definition monitor_start (c : py_config) (tgc : telegram) (u : Z) (http : http_outcome)
    : list start_event * option loop_config :=
  let svcs := conf_services c in
  let repos := conf_repositories c in
  match svcs, repos with
  | [], [] => ([SLogStarted; SLogNothingConfigured], None)
  | _, _ =>
      let ev_mon := match svcs with [] => [] | _ => [SLogMonitoring (map fst svcs)] end in
      let ev_post :=
        if creds_set tgc then
          SPostStartup (startup_lines c) 5 ::
          match http with
          | HttpRaised m => [SLogStartupFailed m]
          | _ => [SLogStartupSent]
          end
        else [] in
      let lc := {| check_interval := conf_check_interval c;
                   max_simple_restarts := conf_max_simple_restarts c;
                   update_check_interval := conf_update_check_interval c;
                   services := svcs;
                   repositories := repos;
                   tg := tgc;
                   uid := u |} in
      let ev_repo := match repos with
                     | [] => []
                     | _ => [SLogWillCheck (List.length repos) (conf_update_check_interval c)]
                     end in
      ([SLogStarted] ++ ev_mon ++ ev_post ++ ev_repo, Some lc)
  end.

(** [main()] up to the monitoring loop: [load_config()], then the start of
    [monitor_loop()]. *)
Definition main_start (config_exists : bool) (read : pyres py_config)
    (env_token env_chat : option string) (u : Z) (http : http_outcome)
    : list load_event * list start_event * option loop_config :=
  let '(c, tgc, lev) := load_config config_exists read env_token env_chat in
  let '(sev, lc) := monitor_start c tgc u http in
  (lev, sev, lc).

(* ================================================================== *)
(** * Properties *)

(** ** Shapes of the traces of the helper functions *)

Definition is_run (x : event) : Prop :=
  match x with EvRun _ _ => True | _ => False end.

(** Events of an agent dispatch after [EvDispatch]/[EvDispatchUpdate]. *)
Definition agent_side (x : event) : Prop :=
  match x with
  | EvLogAgentResult _ | EvLogAgentText _ | EvLogAgentError _
  | EvLogRaceIgnored _ | EvPost _ => True
  | _ => False
  end.

(** Events of [simple_restart]. *)
Definition restart_side (x : event) : Prop :=
  match x with
  | EvRun _ _ | EvSleep 5 | EvLogNoRestartMethod _ | EvLogRestartFailed _ => True
  | _ => False
  end.

Definition is_post (x : event) : Prop :=
  match x with EvPost _ => True | _ => False end.

Definition log_only (x : event) : Prop :=
  match x with EvLogAgentResult _ | EvLogAgentText _ => True | _ => False end.

Create HintDb evshape.
#[local] Hint Unfold is_run agent_side restart_side is_post log_only : evshape.

Ltac forall_list :=
  repeat first
    [ apply Forall_app_2
    | apply Forall_cons_2
    | apply Forall_nil_2
    | progress (simpl; auto with evshape) ].

Lemma check_service_health_runs e svcs s :
  Forall is_run (check_service_health e svcs s).2.
Proof.
  unfold check_service_health.
  repeat case_match; simplify_eq/=; forall_list.
Qed.

Lemma log_agent_msgs_side ms : Forall agent_side (flat_map log_agent_msg ms).
Proof.
  induction ms as [|m ms IH]; simpl; [constructor|].
  apply Forall_app_2; [destruct m; forall_list | exact IH].
Qed.

Lemma log_agent_msgs_only ms : Forall log_only (flat_map log_agent_msg ms).
Proof.
  induction ms as [|m ms IH]; simpl; [constructor|].
  apply Forall_app_2; [destruct m; forall_list | exact IH].
Qed.

Lemma log_agent_msgs_no_post ms x :
  In x (flat_map log_agent_msg ms) -> ~ is_post x.
Proof.
  intros Hin.
  pose proof (log_agent_msgs_only ms) as H.
  rewrite List.Forall_forall in H.
  specialize (H x Hin). destruct x; simpl in *; tauto.
Qed.

Lemma invoke_agent_shape tg s run :
  exists rest, invoke_agent tg s run = EvDispatch s :: rest /\ Forall agent_side rest.
Proof.
  eexists; split; [reflexivity|].
  apply Forall_app_2; [apply log_agent_msgs_side|].
  repeat case_match; forall_list.
Qed.

Lemma invoke_update_agent_shape tg r run :
  exists rest, invoke_update_agent tg r run = EvDispatchUpdate r :: rest
               /\ Forall agent_side rest.
Proof.
  eexists; split; [reflexivity|].
  apply Forall_app_2; [apply log_agent_msgs_side|].
  repeat case_match; forall_list.
Qed.

Lemma simple_restart_side u e es svcs s :
  Forall restart_side (simple_restart u e es svcs s).2.
Proof.
  unfold simple_restart.
  repeat case_match; simplify_eq/=; forall_list.
  match goal with
  | Heq : check_service_health _ _ _ = (_, ?l) |- Forall _ ?l =>
      pose proof (check_service_health_runs es svcs s) as Hruns;
      rewrite Heq in Hruns
  end.
  apply (Forall_impl is_run); [done|intros [] ?; done].
Qed.

(** ** Claims about the probe, the restart, the dispatchers and the notifier *)

Definition svc_launchd : service_config :=
  {| launchd_label := Some "com.example.svc"; systemd_unit := None; port := None;
     log_file := None; health_check_command := None; restart_command := None |}.

Definition svc_command (cmd : string) : service_config :=
  {| launchd_label := Some "com.example.svc"; systemd_unit := None; port := Some 8080;
     log_file := None; health_check_command := Some cmd; restart_command := None |}.

Definition svc_port_script : service_config :=
  {| launchd_label := None; systemd_unit := None; port := Some 8080;
     log_file := None; health_check_command := None;
     restart_command := Some "./restart.sh" |}.

(** C3 (counterexample): a descriptor with no health signal at all is
    reported healthy, not unhealthy. *)
Lemma C3_no_signal_reported_healthy :
  (check_service_health (fun _ => Raised "not called") [("svc", empty_service)] "svc").1
  = true.
Proof. reflexivity. Qed.

(** C3 (amended): for a configured service whose descriptor has none of
    [health_check_command], [launchd_label], [systemd_unit] and [port],
    [check_service_health] returns [True] without running any command; only
    a service name missing from the configuration yields [False]. *)
Theorem C3_check_service_health_no_signal (e : env)
    (svcs : list (string * service_config)) (s : string) (config : service_config) :
  py_lookup s svcs = Some config ->
  health_check_command config = None -> launchd_label config = None ->
  systemd_unit config = None -> port config = None ->
  check_service_health e svcs s = (true, []) /\
  (forall s', py_lookup s' svcs = None -> check_service_health e svcs s' = (false, [])).
Proof.
  intros Hl Hh Hla Hs Hp. split.
  - unfold check_service_health. by rewrite Hl, Hh, Hla, Hs, Hp.
  - intros s' Hn. unfold check_service_health. by rewrite Hn.
Qed.

Lemma C3_check_service_health_no_signal_witness :
  check_service_health (fun _ => Raised "not called") [("svc", empty_service)] "svc"
    = (true, []) /\
  (forall s', py_lookup s' [("svc", empty_service)] = None ->
     check_service_health (fun _ => Raised "not called") [("svc", empty_service)] s'
       = (false, [])).
Proof.
  apply (C3_check_service_health_no_signal _ _ "svc" empty_service);
    reflexivity.
Defined.

(** C4 (code bug): the probe of a launchd service runs [launchctl list]
    without a [timeout], whereas the sibling custom-command probe of the same
    function passes [timeout=10]; the same holds for [systemctl is-active]
    and [lsof].  A hanging [launchctl] stalls the probe. *)
Theorem C4_launchd_probe_has_no_timeout (e : env) (cmd : string) :
  (check_service_health e [("svc", svc_launchd)] "svc").2
    = [EvRun CmdLaunchctlList None] /\
  (check_service_health e [("svc", svc_command cmd)] "svc").2
    = [EvRun (CmdShell cmd) (Some 10)].
Proof.
  split; unfold check_service_health; simpl;
    repeat case_match; simplify_eq/=; done.
Qed.

(** The world where [./restart.sh] fails and where port 8080 is listening. *)
Definition env_restart_fails : env := fun _ => Exited 1 "".
Definition env_listening : env := fun _ => Exited 0 "node 4242 LISTEN".

(** C5 (counterexample): a restart command that exits non-zero makes
    [simple_restart] return [False] at once, with no settle period and no
    re-probe, although the re-probe would have found the service healthy. *)
Lemma C5_failed_restart_command_skips_settle :
  simple_restart 501 env_restart_fails env_listening [("svc", svc_port_script)] "svc"
    = (false, [EvRun (CmdShell "./restart.sh") None;
               EvLogRestartFailed "CalledProcessError"]) /\
  (check_service_health env_listening [("svc", svc_port_script)] "svc").1 = true.
Proof. split; reflexivity. Qed.

(** C5 (amended): the restart method is the launchd kickstart, else the
    systemd restart, else the custom [restart_command], else none, in which
    case [simple_restart] returns [False] at once.  When the restart command
    completes with exit code 0, [simple_restart] sleeps 5 seconds, re-probes
    and returns the re-probe's verdict (so exit 0 with an unhealthy re-probe
    gives [False]); when the command exits non-zero or raises, it returns
    [False] immediately, without settling or re-probing: its only events
    are the restart command and the logged failure. *)
Theorem C5_simple_restart_spec (u : Z) (e es : env)
    (svcs : list (string * service_config)) (s : string) (config : service_config) :
  py_lookup s svcs = Some config ->
  (forall l, launchd_label config = Some l ->
     restart_method u config = Some (CmdLaunchctlKickstart u l)) /\
  (launchd_label config = None -> forall un, systemd_unit config = Some un ->
     restart_method u config = Some (CmdSystemctlRestart un)) /\
  (launchd_label config = None -> systemd_unit config = None ->
     forall rc, restart_command config = Some rc ->
     restart_method u config = Some (CmdShell rc)) /\
  (launchd_label config = None -> systemd_unit config = None ->
     restart_command config = None ->
     simple_restart u e es svcs s = (false, [EvLogNoRestartMethod s])) /\
  (forall c, restart_method u config = Some c ->
     (forall out, e c = Exited 0 out ->
        simple_restart u e es svcs s
          = ((check_service_health es svcs s).1,
             [EvRun c None; EvSleep 5] ++ (check_service_health es svcs s).2)) /\
     ((forall out, e c <> Exited 0 out) ->
        exists m, simple_restart u e es svcs s
                    = (false, [EvRun c None; EvLogRestartFailed m]))).
Proof.
  intros Hl. unfold restart_method.
  split; [intros l Hla; by rewrite Hla|].
  split; [intros Hla un Hs; by rewrite Hla, Hs|].
  split; [intros Hla Hs rc Hr; by rewrite Hla, Hs, Hr|].
  split.
  { intros Hla Hs Hr. unfold simple_restart, restart_method.
    by rewrite Hl, Hla, Hs, Hr. }
  intros c Hc. fold (restart_method u config) in Hc. split.
  - intros out He. unfold simple_restart, run_checked.
    rewrite Hl, Hc, He. by destruct (check_service_health es svcs s).
  - intros Hne. unfold simple_restart, run_checked.
    rewrite Hl, Hc.
    destruct (e c) as [rc out|m] eqn:He.
    + destruct rc; [by destruct (Hne out)|..]; simpl; eauto.
    + simpl; eauto.
Qed.

Lemma C5_simple_restart_spec_witness :
  exists m, simple_restart 501 env_restart_fails env_listening
              [("svc", svc_port_script)] "svc"
            = (false, [EvRun (CmdShell "./restart.sh") None; EvLogRestartFailed m]).
Proof.
  pose proof (C5_simple_restart_spec 501 env_restart_fails env_listening
                [("svc", svc_port_script)] "svc" svc_port_script eq_refl)
    as (_ & _ & _ & _ & H).
  apply (H (CmdShell "./restart.sh") eq_refl).
  intros out; discriminate.
Defined.

(** The credentials of a configured Telegram bot, and of none. *)
Definition tg_on : telegram := {| bot_token := "123:abc"; chat_id := "42" |}.
Definition tg_off : telegram := {| bot_token := ""; chat_id := "" |}.

Lemma invoke_agent_posts tg s run x :
  In x (invoke_agent tg s run) -> is_post x ->
  exists err, agent_error run = Some err /\ creds_set tg = true /\
              x = EvPost (PostServiceFallback s err).
Proof.
  unfold invoke_agent. intros [Hx|Hx] Hp; [subst; done|].
  apply in_app_or in Hx as [Hx|Hx];
    [by destruct (log_agent_msgs_no_post _ _ Hx Hp)|].
  destruct (agent_error run) as [err|]; [|done].
  destruct Hx as [Hx|Hx]; [subst; done|].
  destruct (creds_set tg); [|done].
  destruct Hx as [Hx|[]]. eauto.
Qed.

Lemma invoke_update_agent_posts tg r run x :
  In x (invoke_update_agent tg r run) -> is_post x ->
  exists err, agent_error run = Some err /\ is_sdk_race err = false /\
              creds_set tg = true /\ x = EvPost (PostUpdateFallback r err).
Proof.
  unfold invoke_update_agent. intros [Hx|Hx] Hp; [subst; done|].
  apply in_app_or in Hx as [Hx|Hx];
    [by destruct (log_agent_msgs_no_post _ _ Hx Hp)|].
  destruct (agent_error run) as [err|]; [|done].
  destruct (is_sdk_race err) eqn:Hr.
  - destruct Hx as [Hx|[]]; subst; done.
  - destruct Hx as [Hx|Hx]; [subst; done|].
    destruct (creds_set tg); [|done].
    destruct Hx as [Hx|[]]. eauto.
Qed.

(** C8 (code bug): [invoke_agent] has no case for the transport race of
    the agent runtime.  With Telegram credentials set, an error containing
    "ProcessTransport is not ready" or "TaskGroup" is logged and notified by
    a fallback post like any other error, whereas the sibling
    [invoke_update_agent] recognises the same error and only logs it, with
    no post. *)
Theorem C8_invoke_agent_notifies_transport_race (tg : telegram) (s : string)
    (run : agent_run) (err : string) :
  creds_set tg = true -> agent_error run = Some err -> is_sdk_race err = true ->
  In (EvLogAgentError err) (invoke_agent tg s run) /\
  In (EvPost (PostServiceFallback s err)) (invoke_agent tg s run) /\
  In (EvLogRaceIgnored (substring 0 100 err)) (invoke_update_agent tg s run) /\
  (forall x, In x (invoke_update_agent tg s run) -> ~ is_post x).
Proof.
  intros Hc He Hr. split; [|split; [|split]].
  - unfold invoke_agent. right. apply in_or_app. right. rewrite He. by left.
  - unfold invoke_agent. right. apply in_or_app. right.
    rewrite He, Hc. right. by left.
  - unfold invoke_update_agent. right. apply in_or_app. right.
    rewrite He, Hr. by left.
  - intros x Hx Hp. destruct (invoke_update_agent_posts _ _ _ _ Hx Hp)
      as (err' & He' & Hr' & _).
    rewrite He in He'. injection He' as ->. congruence.
Qed.

Lemma C8_invoke_agent_notifies_transport_race_witness :
  let run := {| agent_messages := [MsgText "restarting"];
                agent_error := Some "ProcessTransport is not ready for writing" |} in
  In (EvPost (PostServiceFallback "web" "ProcessTransport is not ready for writing"))
     (invoke_agent tg_on "web" run) /\
  (forall x, In x (invoke_update_agent tg_on "web" run) -> ~ is_post x).
Proof.
  destruct (C8_invoke_agent_notifies_transport_race tg_on "web"
    {| agent_messages := [MsgText "restarting"];
       agent_error := Some "ProcessTransport is not ready for writing" |}
    "ProcessTransport is not ready for writing" eq_refl eq_refl eq_refl)
    as (_ & Hp & _ & Hn).
  exact (conj Hp Hn).
Defined.

(** C9: without a bot token or without a chat id, [send_telegram_tool]
    returns an error result and makes no HTTP request; the fallback
    notifications of both dispatchers make none either. *)
Theorem C9_no_credentials_no_network (tg : telegram) (message : string)
    (http : http_outcome) :
  bot_token tg = "" \/ chat_id tg = "" ->
  send_telegram_tool tg message http
    = ({| content := TCText "Telegram not configured (missing token or chat ID)";
          is_error := true |}, []) /\
  (forall s run x, In x (invoke_agent tg s run) -> ~ is_post x) /\
  (forall r run x, In x (invoke_update_agent tg r run) -> ~ is_post x).
Proof.
  intros Hoff.
  assert (Hc : creds_set tg = false).
  { unfold creds_set. destruct Hoff as [-> | ->]; simpl;
      [done | by rewrite andb_false_r]. }
  split; [|split].
  - unfold send_telegram_tool. by rewrite Hc.
  - intros s run x Hx Hp.
    destruct (invoke_agent_posts _ _ _ _ Hx Hp) as (? & _ & ? & _); congruence.
  - intros r run x Hx Hp.
    destruct (invoke_update_agent_posts _ _ _ _ Hx Hp) as (? & _ & _ & ? & _); congruence.
Qed.

Lemma C9_no_credentials_no_network_witness :
  send_telegram_tool tg_off "web is down" HttpOk
    = ({| content := TCText "Telegram not configured (missing token or chat ID)";
          is_error := true |}, []).
Proof.
  apply (C9_no_credentials_no_network tg_off "web is down" HttpOk).
  left; reflexivity.
Defined.

(** ** The update check *)

Definition app_repo : repo_config :=
  {| path := "/srv/app"; branch := Some "main"; post_update_commands := [];
     restart_services := [] |}.

(** [git fetch origin] fails (exit 128, the network is down); the stale
    [origin/main] still equals [HEAD]. *)
Definition git_fetch_fails : env := fun c =>
  match c with
  | CmdGitFetch _ => Exited 128 "fatal: unable to access remote"
  | CmdGitRevParse _ _ => Exited 0 "abc123"
  | CmdGitAbbrevHead _ => Exited 0 "main"
  | _ => Exited 0 ""
  end.

Definition no_agent_run : agent_run := {| agent_messages := []; agent_error := None |}.

(** C7 (code bug): in [monitor_loop] the return code of [git fetch] is not
    checked, so a failed fetch followed by equal revisions is logged as
    "up to date"; the sibling [check_git_updates_tool] runs the same fetch
    with [check=True] and reports the failure as an error. *)
Theorem C7_fetch_failure_reported_up_to_date :
  repo_check tg_on "app" app_repo
    {| path_exists := true; git := git_fetch_fails; update_agent := no_agent_run |}
  = [EvRun (CmdGitFetch "/srv/app") (Some 30);
     EvRun (CmdGitRevParse "/srv/app" "HEAD") None;
     EvRun (CmdGitRevParse "/srv/app" "origin/main") None;
     EvLogRepoUpToDate "app"] /\
  is_error (check_git_updates_tool [("app", app_repo)] (fun _ => true)
              git_fetch_fails "app") = true.
Proof. split; reflexivity. Qed.

(** ** Events of the loop *)

(** The service an event of the service pass is about. *)
Definition about (x : event) : option string :=
  match x with
  | EvProbe t | EvRestart t | EvDispatch t | EvSetCount t _ => Some t
  | _ => None
  end.

Definition is_set_last (x : event) : Prop :=
  match x with EvSetLastCheck _ => True | _ => False end.

(** The events the step of service [s] can produce. *)
Definition step_event (s : string) (x : event) : Prop :=
  match x with
  | EvSetLastCheck _ | EvDispatchUpdate _ | EvLogRepoMissing _
  | EvLogRepoUpToDate _ | EvLogRepoError _ _ => False
  | _ => match about x with None => True | Some t => t = s end
  end.

(** The events of the repository pass. *)
Definition repo_event (x : event) : Prop := about x = None /\ ~ is_set_last x.

Lemma agent_side_step s x : agent_side x -> step_event s x.
Proof. destruct x; simpl; tauto. Qed.

Lemma agent_side_repo x : agent_side x -> repo_event x.
Proof. destruct x; simpl; try contradiction; (split; [reflexivity | intros []]). Qed.

Lemma run_step s x : is_run x -> step_event s x.
Proof. destruct x; simpl; tauto. Qed.

Lemma restart_side_step s x : restart_side x -> step_event s x.
Proof. destruct x; simpl; tauto. Qed.

Ltac leaf :=
  first
    [ solve [simpl; auto]
    | solve [split; [reflexivity | intros []]]
    | solve [eapply Forall_impl; [eassumption|];
             eauto using agent_side_step, agent_side_repo, run_step,
               restart_side_step] ].

Ltac forall_leaves :=
  repeat first [ apply Forall_app_2 | apply Forall_cons_2 | apply Forall_nil_2 ];
  try leaf.

Lemma service_step_events cfg o s c :
  Forall (step_event s) (service_step cfg o s c).2.
Proof.
  unfold service_step.
  pose proof (check_service_health_runs (probe_env o) (services cfg) s) as Hp.
  destruct (check_service_health (probe_env o) (services cfg) s) as [h pe].
  simpl in Hp.
  pose proof (simple_restart_side (uid cfg) (restart_env o) (settled_env o)
                (services cfg) s) as Hr.
  destruct (simple_restart (uid cfg) (restart_env o) (settled_env o)
              (services cfg) s) as [ok re].
  simpl in Hr.
  destruct (invoke_agent_shape (tg cfg) s (agent o s)) as (rest & -> & Ha).
  repeat case_match; simpl; forall_leaves.
Qed.

Lemma repo_check_events tg name rcfg ro :
  Forall repo_event (repo_check tg name rcfg ro).
Proof.
  unfold repo_check.
  destruct (invoke_update_agent_shape tg name (update_agent ro)) as (rest & -> & Ha).
  repeat case_match; simpl; forall_leaves.
Qed.

Lemma repo_pass_events cfg o : Forall repo_event (repo_pass cfg o).
Proof.
  unfold repo_pass. induction (repositories cfg) as [|[name rcfg] rs IH]; simpl;
    [constructor|].
  apply Forall_app_2; [apply repo_check_events | exact IH].
Qed.

Lemma service_pass_events cfg o (l : list string) (rc : gmap string nat) :
  Forall (fun x => exists t, In t l /\ step_event t x) (service_pass cfg o l rc).2.
Proof.
  revert rc. induction l as [|s l IH]; intros rc; simpl; [constructor|].
  pose proof (service_step_events cfg o s (count_of rc s)) as Hs.
  destruct (service_step cfg o s (count_of rc s)) as [c' ev].
  specialize (IH (<[s:=c']> rc)).
  destruct (service_pass cfg o l (<[s:=c']> rc)) as [rc' evs]. simpl in *.
  apply Forall_app_2.
  - eapply Forall_impl; [exact Hs|]. intros x Hx. exists s. auto.
  - eapply Forall_impl; [exact IH|]. intros x (t & Ht & Hx). exists t. auto.
Qed.

Lemma service_pass_keep cfg o (l : list string) (rc : gmap string nat) s :
  ~ In s l -> (service_pass cfg o l rc).1 !! s = rc !! s.
Proof.
  revert rc. induction l as [|t l IH]; intros rc Hn; simpl; [done|].
  destruct (service_step cfg o t (count_of rc t)) as [c' ev].
  pose proof (IH (<[t:=c']> rc) (fun H => Hn (or_intror H))) as Hk.
  destruct (service_pass cfg o l (<[t:=c']> rc)) as [rc' evs]. simpl in *.
  rewrite Hk. apply lookup_insert_ne. intros ->. apply Hn. by left.
Qed.

Lemma step_event_other s t x : step_event t x -> t <> s -> about x <> Some s.
Proof.
  intros Hx Hne. destruct x; simpl in *; try done; congruence.
Qed.

Lemma service_pass_others cfg o (l : list string) (rc : gmap string nat) s :
  ~ In s l -> Forall (fun x => about x <> Some s) (service_pass cfg o l rc).2.
Proof.
  intros Hn. eapply Forall_impl; [apply service_pass_events|].
  intros x (t & Ht & Hx). apply (step_event_other s t x Hx).
  intros ->. contradiction.
Qed.

(** The pass over the services, seen from one service [s]: its counter
    after the pass is the one of its own step, and its step's events appear
    contiguously among events about other services. *)
Lemma service_pass_split cfg o (l1 l2 : list string) (rc : gmap string nat) s :
  ~ In s l1 -> ~ In s l2 ->
  (service_pass cfg o (l1 ++ s :: l2) rc).1 !! s
    = Some (service_step cfg o s (count_of rc s)).1 /\
  exists pre post,
    (service_pass cfg o (l1 ++ s :: l2) rc).2
      = pre ++ (service_step cfg o s (count_of rc s)).2 ++ post /\
    Forall (fun x => about x <> Some s) (pre ++ post).
Proof.
  revert rc. induction l1 as [|t l1 IH]; intros rc Hn1 Hn2; simpl.
  - destruct (service_step cfg o s (count_of rc s)) as [c' ev] eqn:Hs.
    pose proof (service_pass_keep cfg o l2 (<[s:=c']> rc) s Hn2) as Hk.
    pose proof (service_pass_others cfg o l2 (<[s:=c']> rc) s Hn2) as Ho.
    destruct (service_pass cfg o l2 (<[s:=c']> rc)) as [rc' evs]. simpl in *.
    split; [by rewrite Hk, lookup_insert_eq|].
    exists [], evs. split; [done|]. exact Ho.
  - assert (Hts : t <> s) by (intros ->; apply Hn1; by left).
    pose proof (service_step_events cfg o t (count_of rc t)) as Ht.
    destruct (service_step cfg o t (count_of rc t)) as [c' ev].
    assert (Hc : count_of (<[t:=c']> rc) s = count_of rc s).
    { unfold count_of. by rewrite lookup_insert_ne. }
    destruct (IH (<[t:=c']> rc) (fun H => Hn1 (or_intror H)) Hn2)
      as (Hk & pre & post & Hev & Ho).
    rewrite Hc in Hk, Hev.
    destruct (service_pass cfg o (l1 ++ s :: l2) (<[t:=c']> rc)) as [rc' evs].
    simpl in *. split; [exact Hk|].
    exists (ev ++ pre), post. split; [by rewrite Hev, app_assoc|].
    rewrite <- app_assoc. apply Forall_app_2; [|exact Ho].
    eapply Forall_impl; [exact Ht|]. intros x Hx. exact (step_event_other s t x Hx Hts).
Qed.

(** The events of a trace that are about service [s]. *)
Definition proj (s : string) (evs : list event) : list event :=
  List.filter (fun x => match about x with Some t => String.eqb t s | None => false end) evs.

(** The number of dispatches to the agent for service [s]. *)
Definition count_dispatch (s : string) (evs : list event) : nat :=
  List.length (List.filter (fun x => match x with EvDispatch t => String.eqb t s | _ => false end) evs).

Lemma proj_app s l1 l2 : proj s (l1 ++ l2) = proj s l1 ++ proj s l2.
Proof. apply List.filter_app. Qed.

Lemma proj_others s l : Forall (fun x => about x <> Some s) l -> proj s l = [].
Proof.
  induction 1 as [|x l Hx _ IH]; simpl; [done|].
  rewrite IH. destruct (about x) as [t|]; [|done].
  destruct (String.eqb_spec t s); [subst; done | done].
Qed.

Lemma count_dispatch_proj s l : count_dispatch s l = count_dispatch s (proj s l).
Proof.
  induction l as [|x l IH]; [done|]. unfold count_dispatch, proj in *. simpl.
  destruct x; simpl; try (destruct (String.eqb _ s) eqn:E; simpl; try rewrite E);
    simpl; rewrite ?IH; done.
Qed.

Lemma in_proj s x l : about x = Some s -> In x l <-> In x (proj s l).
Proof.
  intros Ha. unfold proj. rewrite List.filter_In, Ha, String.eqb_refl. tauto.
Qed.

Lemma runs_proj s l : Forall is_run l -> proj s l = [].
Proof. intros H. apply proj_others. eapply Forall_impl; [exact H|]. by intros [] ?. Qed.

Lemma restart_proj s l : Forall restart_side l -> proj s l = [].
Proof.
  intros H. apply proj_others. eapply Forall_impl; [exact H|].
  intros [] ?; simpl in *; done.
Qed.

Lemma agent_proj s l : Forall agent_side l -> proj s l = [].
Proof. intros H. apply proj_others. eapply Forall_impl; [exact H|]. by intros [] ?. Qed.

(** The decision of one service step and its counter. *)
Lemma service_step_value cfg o s c :
  (service_step cfg o s c).1 =
    if (check_service_health (probe_env o) (services cfg) s).1 then
      (if (0 <? c)%nat then 0%nat else c)
    else if (S c <=? max_simple_restarts cfg)%nat then
      (if (simple_restart (uid cfg) (restart_env o) (settled_env o) (services cfg) s).1
       then 0%nat else S c)
    else 0%nat.
Proof.
  unfold service_step.
  destruct (check_service_health _ _ _) as [h pe].
  destruct (simple_restart _ _ _ _ _) as [ok re].
  simpl. repeat case_match; done.
Qed.

(** The events of one service step that are about the service itself. *)
Lemma service_step_proj cfg o s c :
  proj s (service_step cfg o s c).2 =
    if (check_service_health (probe_env o) (services cfg) s).1 then
      (if (0 <? c)%nat then [EvProbe s; EvSetCount s 0] else [EvProbe s])
    else if (S c <=? max_simple_restarts cfg)%nat then
      (if (simple_restart (uid cfg) (restart_env o) (settled_env o) (services cfg) s).1
       then [EvProbe s; EvSetCount s (S c); EvRestart s; EvSetCount s 0]
       else [EvProbe s; EvSetCount s (S c); EvRestart s])
    else [EvProbe s; EvSetCount s (S c); EvDispatch s; EvSetCount s 0].
Proof.
  unfold service_step.
  pose proof (check_service_health_runs (probe_env o) (services cfg) s) as Hp.
  destruct (check_service_health _ _ _) as [h pe]. simpl in Hp.
  pose proof (simple_restart_side (uid cfg) (restart_env o) (settled_env o)
                (services cfg) s) as Hr.
  destruct (simple_restart _ _ _ _ _) as [ok re]. simpl in Hr.
  destruct (invoke_agent_shape (tg cfg) s (agent o s)) as (rest & -> & Ha).
  simpl.
  repeat case_match; simpl;
    repeat (rewrite ?proj_app; simpl);
    rewrite ?String.eqb_refl, ?(runs_proj s pe Hp), ?(restart_proj s re Hr),
      ?(agent_proj s rest Ha); simpl; rewrite ?String.eqb_refl; done.
Qed.

Lemma split_nodup (l : list string) s :
  NoDup l -> In s l -> exists l1 l2, l = l1 ++ s :: l2 /\ ~ In s l1 /\ ~ In s l2.
Proof.
  intros Hnd Hin. destruct (in_split s l Hin) as (l1 & l2 & ->).
  exists l1, l2. split; [done|].
  apply NoDup_app in Hnd as (_ & Hdis & Hnd2).
  apply NoDup_cons in Hnd2 as [Hn2 _].
  split; intros H.
  - apply (Hdis s); [by apply list_elem_of_In | apply list_elem_of_In; by left].
  - apply Hn2. by apply list_elem_of_In.
Qed.

(** One iteration of [while True], seen from one configured service. *)
Lemma tick_focus cfg o st s :
  NoDup (map fst (services cfg)) -> In s (map fst (services cfg)) ->
  count_of (restart_counts (tick cfg o st).1) s
    = (service_step cfg o s (count_of (restart_counts st) s)).1 /\
  exists pre post,
    (tick cfg o st).2
      = pre ++ (service_step cfg o s (count_of (restart_counts st) s)).2 ++ post /\
    Forall (fun x => about x <> Some s) (pre ++ post).
Proof.
  intros Hnd Hin.
  destruct (split_nodup _ s Hnd Hin) as (l1 & l2 & Hl & Hn1 & Hn2).
  destruct (service_pass_split cfg o l1 l2 (restart_counts st) s Hn1 Hn2)
    as (Hk & pre & post & Hev & Ho).
  pose proof (repo_pass_events cfg o) as Hr.
  unfold tick. rewrite Hl.
  destruct (service_pass cfg o (l1 ++ s :: l2) (restart_counts st)) as [rc' ev1].
  simpl in *.
  destruct (update_due cfg (last_update_check st) (now o)); simpl;
    (split; [unfold count_of; by rewrite Hk|]).
  - exists pre, (post ++ [EvSetLastCheck (now o)] ++ repo_pass cfg o
                  ++ [EvSleep (check_interval cfg)]).
    split; [rewrite Hev; by rewrite <- !app_assoc|].
    apply Forall_app in Ho as [Hpre Hpost].
    repeat (apply Forall_app_2 || apply Forall_cons_2); try done.
    eapply Forall_impl; [exact Hr|]. intros x [Ha _]. by rewrite Ha.
  - exists pre, (post ++ [EvSleep (check_interval cfg)]).
    split; [rewrite Hev; by rewrite <- !app_assoc|].
    apply Forall_app in Ho as [Hpre Hpost].
    repeat (apply Forall_app_2 || apply Forall_cons_2); done.
Qed.

Lemma tick_proj cfg o st s :
  NoDup (map fst (services cfg)) -> In s (map fst (services cfg)) ->
  proj s (tick cfg o st).2
    = proj s (service_step cfg o s (count_of (restart_counts st) s)).2.
Proof.
  intros Hnd Hin. destruct (tick_focus cfg o st s Hnd Hin) as (_ & pre & post & -> & Ho).
  apply Forall_app in Ho as [Hpre Hpost].
  by rewrite !proj_app, (proj_others s pre Hpre), (proj_others s post Hpost), app_nil_r.
Qed.

(** The spec's scenario: service [web] with only [port: 8080], never
    listening, and [max_simple_restarts = 2]. *)
Definition svc_port_only : service_config :=
  {| launchd_label := None; systemd_unit := None; port := Some 8080;
     log_file := None; health_check_command := None; restart_command := None |}.

Definition web_cfg : loop_config :=
  {| check_interval := 30; max_simple_restarts := 2; update_check_interval := 14400;
     services := [("web", svc_port_only)]; repositories := []; tg := tg_on;
     uid := 501 |}.

Definition env_down : env := fun _ => Exited 1 "".

Definition web_down : tick_obs :=
  {| probe_env := env_down; restart_env := env_down; settled_env := env_down;
     agent := fun _ => no_agent_run; now := 100;
     repo := fun _ => {| path_exists := true; git := env_down;
                         update_agent := no_agent_run |} |}.

(** C2 (counterexample): in that scenario the third unhealthy iteration,
    which crosses the threshold, leaves the counter at 0 and not at 3. *)
Definition web_after_two : wstate :=
  (run_ticks web_cfg [web_down; web_down] (init_state web_cfg)).1.

Lemma C2_threshold_tick_resets_counter :
  (check_service_health (probe_env web_down) (services web_cfg) "web").1 = false /\
  count_of (restart_counts web_after_two) "web" = 2%nat /\
  count_of (restart_counts (tick web_cfg web_down web_after_two).1) "web" = 0%nat.
Proof. vm_compute. auto. Qed.

(** C2 (amended): [restart_counts[service]] is a natural number.  In an
    iteration where the probe reports the service healthy, or where the
    restart attempted succeeds, it is 0 afterwards.  When the probe reports
    it unhealthy the counter is first set to its old value plus one; if that
    value is at most [max_simple_restarts] a restart is attempted and, when
    it fails, the counter stays at that value; otherwise the agent is
    dispatched and the counter is 0 afterwards.  Whether a restart or a
    dispatch happens is decided by the probe and the incremented counter
    alone. *)
Theorem C2_restart_counter_per_tick cfg o st s :
  NoDup (map fst (services cfg)) -> In s (map fst (services cfg)) ->
  let N := max_simple_restarts cfg in
  let c := count_of (restart_counts st) s in
  let healthy := (check_service_health (probe_env o) (services cfg) s).1 in
  let restarted :=
    (simple_restart (uid cfg) (restart_env o) (settled_env o) (services cfg) s).1 in
  let c' := count_of (restart_counts (tick cfg o st).1) s in
  let evs := (tick cfg o st).2 in
  (healthy = true -> c' = 0%nat) /\
  (healthy = false -> (S c <= N)%nat -> restarted = true -> c' = 0%nat) /\
  (healthy = false -> (S c <= N)%nat -> restarted = false -> c' = S c) /\
  (healthy = false -> (N < S c)%nat -> c' = 0%nat) /\
  (In (EvSetCount s (S c)) evs <-> healthy = false) /\
  (In (EvRestart s) evs <-> healthy = false /\ (S c <= N)%nat) /\
  (In (EvDispatch s) evs <-> healthy = false /\ (N < S c)%nat).
Proof.
  intros Hnd Hin N c healthy restarted c' evs.
  destruct (tick_focus cfg o st s Hnd Hin) as [Hc _].
  pose proof (tick_proj cfg o st s Hnd Hin) as Hp.
  pose proof (service_step_value cfg o s c) as Hv.
  pose proof (service_step_proj cfg o s c) as Hsp.
  fold c in Hc, Hp.
  unfold c', evs, healthy, restarted, N in *.
  rewrite Hc, Hv.
  rewrite (in_proj s (EvSetCount s (S c))), (in_proj s (EvRestart s)),
    (in_proj s (EvDispatch s)) by done.
  rewrite Hp, Hsp.
  destruct (check_service_health (probe_env o) (services cfg) s).1,
    (simple_restart (uid cfg) (restart_env o) (settled_env o) (services cfg) s).1;
    destruct (Nat.ltb_spec 0 c), (Nat.leb_spec (S c) (max_simple_restarts cfg));
    simpl;
    repeat split; intros; try lia;
    repeat match goal with
           | H : _ \/ _ |- _ => destruct H
           | H : _ /\ _ |- _ => destruct H
           | H : EvSetCount _ _ = EvSetCount _ _ |- _ => injection H as ?
           end;
    try discriminate; try lia; try tauto.
Qed.

Lemma C2_restart_counter_per_tick_witness :
  In (EvSetCount "web" 1) (tick web_cfg web_down (init_state web_cfg)).2 <->
  (check_service_health (probe_env web_down) (services web_cfg) "web").1 = false.
Proof.
  destruct (C2_restart_counter_per_tick web_cfg web_down (init_state web_cfg) "web")
    as (_ & _ & _ & _ & H & _).
  - simpl. constructor; [intros Hx; inversion Hx | constructor].
  - simpl. left. reflexivity.
  - exact H.
Defined.

(** ** Several iterations *)

Lemma run_ticks_snoc cfg (os : list tick_obs) o st :
  run_ticks cfg (os ++ [o]) st =
    let '(st1, evss) := run_ticks cfg os st in
    let '(st2, ev) := tick cfg o st1 in
    (st2, evss ++ [ev]).
Proof.
  revert st. induction os as [|o' os IH]; intros st; simpl.
  - destruct (tick cfg o st). done.
  - destruct (tick cfg o' st) as [st1 ev1]. rewrite IH.
    destruct (run_ticks cfg os st1) as [st2 evss].
    destruct (tick cfg o st2). done.
Qed.

Lemma count_dispatch_others s l :
  Forall (fun x => about x <> Some s) l -> count_dispatch s l = 0%nat.
Proof. intros H. by rewrite count_dispatch_proj, proj_others. Qed.

(** Iterations where [s] is unhealthy and its restart fails, below the
    threshold: the counter goes up by one each time and nothing is
    dispatched for [s]. *)
Lemma run_ticks_failing cfg (os : list tick_obs) st s :
  NoDup (map fst (services cfg)) -> In s (map fst (services cfg)) ->
  (count_of (restart_counts st) s + List.length os <= max_simple_restarts cfg)%nat ->
  (forall o, In o os ->
     (check_service_health (probe_env o) (services cfg) s).1 = false /\
     (simple_restart (uid cfg) (restart_env o) (settled_env o) (services cfg) s).1
       = false) ->
  count_of (restart_counts (run_ticks cfg os st).1) s
    = (count_of (restart_counts st) s + List.length os)%nat /\
  List.length (run_ticks cfg os st).2 = List.length os /\
  Forall (fun evs => count_dispatch s evs = 0%nat) (run_ticks cfg os st).2.
Proof.
  intros Hnd Hin. revert st.
  induction os as [|o os IH]; intros st Hle Hall; simpl; [split; [lia | done]|].
  destruct (Hall o (or_introl eq_refl)) as [Hh Hr].
  destruct (tick_focus cfg o st s Hnd Hin) as [Hc _].
  pose proof (tick_proj cfg o st s Hnd Hin) as Hp.
  pose proof (service_step_value cfg o s (count_of (restart_counts st) s)) as Hv.
  pose proof (service_step_proj cfg o s (count_of (restart_counts st) s)) as Hsp.
  rewrite Hh, Hr in Hv, Hsp. simpl in Hle.
  assert (Hlt : (S (count_of (restart_counts st) s) <=? max_simple_restarts cfg)%nat = true)
    by (apply Nat.leb_le; lia).
  rewrite Hlt in Hv, Hsp.
  destruct (tick cfg o st) as [st1 ev] eqn:Ht. simpl in *.
  destruct (IH st1) as (Hc' & Hlen & Hf).
  { rewrite Hc, Hv. lia. }
  { intros o' Ho'. apply Hall. by right. }
  destruct (run_ticks cfg os st1) as [st2 evss]. simpl in *.
  split; [rewrite Hc', Hc, Hv; lia|]. split; [by rewrite Hlen|].
  constructor; [|exact Hf].
  by rewrite count_dispatch_proj, Hp, Hsp.
Qed.

(** The step of a service that crosses the threshold. *)
Lemma service_step_escalate cfg o s c :
  (check_service_health (probe_env o) (services cfg) s).1 = false ->
  (max_simple_restarts cfg < S c)%nat ->
  service_step cfg o s c =
    (0%nat, [EvProbe s] ++ (check_service_health (probe_env o) (services cfg) s).2
              ++ [EvSetCount s (S c)] ++ invoke_agent (tg cfg) s (agent o s)
              ++ [EvSetCount s 0; EvSleep 300]).
Proof.
  intros Hh Hlt. unfold service_step.
  destruct (check_service_health (probe_env o) (services cfg) s) as [h pe].
  simpl in Hh. subst h.
  assert (Hb : (S c <=? max_simple_restarts cfg)%nat = false)
    by (apply Nat.leb_gt; lia).
  rewrite Hb. simpl. by rewrite <- !app_assoc.
Qed.

(** C1: for a configured service [s] (the keys of [services] are distinct)
    whose counter is 0, if the probe reports [s] unhealthy in
    [max_simple_restarts + 1] consecutive iterations and the restarts of the
    first [max_simple_restarts] ones fail, then the agent is dispatched for
    [s] exactly once, in the last of these iterations, right after the
    counter is set to [max_simple_restarts + 1]; whatever the agent run
    does, the counter is set to 0 as soon as the dispatch returns and a
    300-second sleep follows, with no probe or command in between. *)
Theorem C1_single_escalation cfg (os : list tick_obs) (o : tick_obs) st s :
  NoDup (map fst (services cfg)) -> In s (map fst (services cfg)) ->
  count_of (restart_counts st) s = 0%nat ->
  List.length os = max_simple_restarts cfg ->
  (forall o', In o' (os ++ [o]) ->
     (check_service_health (probe_env o') (services cfg) s).1 = false) ->
  (forall o', In o' os ->
     (simple_restart (uid cfg) (restart_env o') (settled_env o') (services cfg) s).1
       = false) ->
  let N := max_simple_restarts cfg in
  let st' := (run_ticks cfg (os ++ [o]) st).1 in
  let evss := (run_ticks cfg (os ++ [o]) st).2 in
  count_of (restart_counts st') s = 0%nat /\
  List.length evss = S N /\
  (forall i evs, evss !! i = Some evs -> (i < N)%nat -> count_dispatch s evs = 0%nat) /\
  exists evs pre post,
    evss !! N = Some evs /\
    count_dispatch s evs = 1%nat /\
    evs = pre ++ [EvSetCount s (S N)] ++ invoke_agent (tg cfg) s (agent o s)
              ++ [EvSetCount s 0; EvSleep 300] ++ post /\
    Forall (fun x => ~ is_run x /\ about x = None)
           (tl (invoke_agent (tg cfg) s (agent o s))).
Proof.
  intros Hnd Hin H0 Hlen Hh Hr N st' evss.
  unfold st', evss. rewrite run_ticks_snoc.
  destruct (run_ticks_failing cfg os st s Hnd Hin) as (Hc1 & Hl1 & Hf1).
  { rewrite H0, Hlen. lia. }
  { intros o' Ho'. split; [apply Hh; apply in_or_app; by left | by apply Hr]. }
  destruct (run_ticks cfg os st) as [st1 evss1]. simpl in *.
  rewrite H0, Hlen in Hc1. simpl in Hc1.
  assert (Hho : (check_service_health (probe_env o) (services cfg) s).1 = false)
    by (apply Hh; apply in_or_app; right; by left).
  destruct (tick_focus cfg o st1 s Hnd Hin) as (Hc & pre & post & Hev & _).
  pose proof (tick_proj cfg o st1 s Hnd Hin) as Hp.
  rewrite Hc1 in Hc. rewrite Hc1 in Hev. rewrite Hc1 in Hp.
  assert (Hesc := service_step_escalate cfg o s (max_simple_restarts cfg) Hho
                    ltac:(lia)).
  rewrite Hesc in Hc. rewrite Hesc in Hev.
  pose proof (service_step_proj cfg o s (max_simple_restarts cfg)) as Hsp.
  rewrite Hho in Hsp.
  assert (Hb : (S (max_simple_restarts cfg) <=? max_simple_restarts cfg)%nat = false)
    by (apply Nat.leb_gt; lia).
  rewrite Hb in Hsp.
  destruct (tick cfg o st1) as [st2 ev]. simpl in *.
  split; [exact Hc|].
  split; [rewrite length_app, Hl1, Hlen; simpl; lia|].
  split.
  { intros i evs Hi Hlt. rewrite lookup_app_l in Hi by lia.
    exact (Forall_lookup_1 _ _ _ _ Hf1 Hi). }
  exists ev, (pre ++ [EvProbe s] ++ (check_service_health (probe_env o) (services cfg) s).2), post.
  split; [rewrite lookup_app_r by lia; by rewrite Hl1, Hlen, Nat.sub_diag|].
  split; [rewrite count_dispatch_proj, Hp, Hsp; unfold count_dispatch;
          cbn -[String.eqb]; by rewrite String.eqb_refl|].
  split; [rewrite Hev; simpl; rewrite <- ?app_assoc; simpl; rewrite <- ?app_assoc;
          reflexivity|].
  destruct (invoke_agent_shape (tg cfg) s (agent o s)) as (rest & Heq & Ha).
  unfold invoke_agent in Heq. injection Heq as Heq. rewrite Heq.
  eapply Forall_impl; [exact Ha|]. intros [] Hx; simpl in *; try contradiction; (split; [intros [] | reflexivity]).
Qed.

Lemma C1_single_escalation_witness :
  count_of (restart_counts
    (run_ticks web_cfg [web_down; web_down; web_down] (init_state web_cfg)).1) "web"
    = 0%nat.
Proof.
  destruct (C1_single_escalation web_cfg [web_down; web_down] web_down
              (init_state web_cfg) "web") as (H & _).
  - simpl. constructor; [intros Hx; inversion Hx | constructor].
  - simpl. left. reflexivity.
  - vm_compute. reflexivity.
  - reflexivity.
  - intros o' Ho'. simpl in Ho'.
    destruct Ho' as [<-|[<-|[<-|[]]]]; reflexivity.
  - intros o' Ho'. simpl in Ho'.
    destruct Ho' as [<-|[<-|[]]]; reflexivity.
  - exact H.
Defined.

(** ** The update-check timestamp *)

Lemma step_event_not_set_last t x : step_event t x -> ~ is_set_last x.
Proof. destruct x; simpl; tauto. Qed.

Lemma service_pass_no_set_last cfg o (l : list string) (rc : gmap string nat) :
  Forall (fun x => ~ is_set_last x) (service_pass cfg o l rc).2.
Proof.
  eapply Forall_impl; [apply service_pass_events|].
  intros x (t & _ & Hx). exact (step_event_not_set_last t x Hx).
Qed.

Lemma tick_not_due cfg o st :
  update_due cfg (last_update_check st) (now o) = false ->
  last_update_check (tick cfg o st).1 = last_update_check st /\
  Forall (fun x => ~ is_set_last x) (tick cfg o st).2.
Proof.
  intros Hd. unfold tick.
  pose proof (service_pass_no_set_last cfg o (map fst (services cfg)) (restart_counts st))
    as Hn.
  destruct (service_pass cfg o (map fst (services cfg)) (restart_counts st)) as [rc' ev1].
  rewrite Hd. simpl in *. split; [done|].
  apply Forall_app_2; [exact Hn|]. repeat constructor. intros [].
Qed.

(** C6: when the update check is due ([repositories] is not empty and
    [update_check_interval] has elapsed since [last_update_check]),
    [last_update_check] is set to the current time once, before any
    repository is checked, whatever the checks then do (fail, raise,
    dispatch); an iteration before the next interval has elapsed checks
    nothing and leaves it unchanged. *)
Theorem C6_last_check_advances_once cfg (o o' : tick_obs) (st : wstate) :
  repositories cfg <> [] ->
  update_check_interval cfg <= now o - last_update_check st ->
  let st1 := (tick cfg o st).1 in
  let ev := (tick cfg o st).2 in
  last_update_check st1 = now o /\
  (exists ev_services,
     ev = ev_services ++ [EvSetLastCheck (now o)] ++ repo_pass cfg o
            ++ [EvSleep (check_interval cfg)] /\
     Forall (fun x => ~ is_set_last x) ev_services) /\
  Forall (fun x => ~ is_set_last x) (repo_pass cfg o) /\
  (now o' - now o < update_check_interval cfg ->
     last_update_check (tick cfg o' st1).1 = now o /\
     Forall (fun x => ~ is_set_last x) (tick cfg o' st1).2).
Proof.
  intros Hr Hle st1 ev.
  assert (Hd : update_due cfg (last_update_check st) (now o) = true).
  { unfold update_due. destruct (repositories cfg); [done|]. apply Z.leb_le. lia. }
  assert (Hlast : last_update_check st1 = now o).
  { unfold st1, tick.
    destruct (service_pass cfg o (map fst (services cfg)) (restart_counts st)).
    by rewrite Hd. }
  split; [exact Hlast|]. split; [|split].
  - unfold ev, tick.
    pose proof (service_pass_no_set_last cfg o (map fst (services cfg))
                  (restart_counts st)) as Hn.
    destruct (service_pass cfg o (map fst (services cfg)) (restart_counts st))
      as [rc' ev1].
    rewrite Hd. simpl in *. exists ev1. split; [done | exact Hn].
  - eapply Forall_impl; [apply repo_pass_events|]. intros x [_ Hx]. exact Hx.
  - intros Hlt.
    assert (Hd' : update_due cfg (last_update_check st1) (now o') = false).
    { unfold update_due. rewrite Hlast. destruct (repositories cfg); [done|].
      apply Z.leb_gt. lia. }
    destruct (tick_not_due cfg o' st1 Hd') as [H1 H2].
    split; [by rewrite H1 | exact H2].
Qed.

Definition app_cfg : loop_config :=
  {| check_interval := 30; max_simple_restarts := 2; update_check_interval := 14400;
     services := [("web", svc_port_only)]; repositories := [("app", app_repo)];
     tg := tg_on; uid := 501 |}.

Definition obs_at (t : Z) : tick_obs :=
  {| probe_env := env_down; restart_env := env_down; settled_env := env_down;
     agent := fun _ => no_agent_run; now := t;
     repo := fun _ => {| path_exists := true; git := git_fetch_fails;
                         update_agent := no_agent_run |} |}.

Lemma C6_last_check_advances_once_witness :
  last_update_check
    (tick app_cfg (obs_at 20030) (tick app_cfg (obs_at 20000) (init_state app_cfg)).1).1
  = 20000.
Proof.
  destruct (C6_last_check_advances_once app_cfg (obs_at 20000) (obs_at 20030)
              (init_state app_cfg)) as (_ & _ & _ & H).
  - discriminate.
  - simpl. lia.
  - apply H. simpl. lia.
Defined.

(** ** Bounds of the counters *)

Definition counts_bounded (N : nat) (rc : gmap string nat) : Prop :=
  forall s c, rc !! s = Some c -> (c <= N)%nat.

Definition writes_bounded (N : nat) (evs : list event) : Prop :=
  forall s v, In (EvSetCount s v) evs -> (v <= S N)%nat.

Lemma writes_bounded_app N l1 l2 :
  writes_bounded N l1 -> writes_bounded N l2 -> writes_bounded N (l1 ++ l2).
Proof. intros H1 H2 s v Hin. apply in_app_or in Hin as [Hin|Hin]; eauto. Qed.

Lemma writes_bounded_none N l :
  Forall (fun x => about x = None) l -> writes_bounded N l.
Proof.
  intros H s v Hin. rewrite List.Forall_forall in H. specialize (H _ Hin). done.
Qed.

Lemma service_step_bounded cfg o s c :
  (c <= max_simple_restarts cfg)%nat ->
  ((service_step cfg o s c).1 <= max_simple_restarts cfg)%nat /\
  writes_bounded (max_simple_restarts cfg) (service_step cfg o s c).2.
Proof.
  intros Hc. split.
  - rewrite service_step_value. repeat case_match; try lia.
    match goal with H : (S c <=? _)%nat = true |- _ => apply Nat.leb_le in H end. lia.
  - intros t v Hin.
    pose proof (service_step_events cfg o s c) as He.
    rewrite List.Forall_forall in He. pose proof (He _ Hin) as Ht. simpl in Ht. subst t.
    rewrite (in_proj s) in Hin by done.
    rewrite service_step_proj in Hin.
    repeat case_match; simpl in Hin;
      repeat match goal with
             | H : _ \/ _ |- _ => destruct H
             | H : EvSetCount _ _ = EvSetCount _ _ |- _ => injection H as ?
             | H : False |- _ => destruct H
             end; try discriminate; lia.
Qed.

Lemma service_pass_bounded cfg o (l : list string) (rc : gmap string nat) :
  counts_bounded (max_simple_restarts cfg) rc ->
  counts_bounded (max_simple_restarts cfg) (service_pass cfg o l rc).1 /\
  writes_bounded (max_simple_restarts cfg) (service_pass cfg o l rc).2.
Proof.
  revert rc. induction l as [|s l IH]; intros rc Hb; simpl.
  - split; [exact Hb | intros ? ? []].
  - assert (Hc : (count_of rc s <= max_simple_restarts cfg)%nat).
    { unfold count_of. destruct (rc !! s) eqn:E; simpl; [exact (Hb _ _ E) | lia]. }
    destruct (service_step_bounded cfg o s _ Hc) as [H1 H2].
    destruct (service_step cfg o s (count_of rc s)) as [c' ev]. simpl in *.
    assert (Hb' : counts_bounded (max_simple_restarts cfg) (<[s:=c']> rc)).
    { intros t v Ht. apply lookup_insert_Some in Ht as [[-> <-]|[_ Ht]];
        [exact H1 | exact (Hb _ _ Ht)]. }
    destruct (IH _ Hb') as [H3 H4].
    destruct (service_pass cfg o l (<[s:=c']> rc)) as [rc' evs]. simpl in *.
    split; [exact H3 | by apply writes_bounded_app].
Qed.

Lemma tick_bounded cfg o st :
  counts_bounded (max_simple_restarts cfg) (restart_counts st) ->
  counts_bounded (max_simple_restarts cfg) (restart_counts (tick cfg o st).1) /\
  writes_bounded (max_simple_restarts cfg) (tick cfg o st).2.
Proof.
  intros Hb. unfold tick.
  destruct (service_pass_bounded cfg o (map fst (services cfg)) _ Hb) as [H1 H2].
  destruct (service_pass cfg o (map fst (services cfg)) (restart_counts st)) as [rc' ev1].
  simpl in *.
  destruct (update_due cfg (last_update_check st) (now o)); simpl;
    (split; [exact H1|]); apply writes_bounded_app; try exact H2;
    apply writes_bounded_none;
    repeat (apply Forall_cons_2 || apply Forall_app_2 || apply Forall_nil_2);
    try done.
  eapply Forall_impl; [apply repo_pass_events|]. intros x [Hx _]. exact Hx.
Qed.

Lemma init_state_bounded cfg :
  counts_bounded (max_simple_restarts cfg) (restart_counts (init_state cfg)).
Proof.
  intros s c Hs. simpl in Hs.
  apply elem_of_list_to_map_2, list_elem_of_In, in_map_iff in Hs as (? & Heq & _).
  injection Heq as _ <-. lia.
Qed.

(** C10: from the initial state, after any number of iterations every
    counter is at most [max_simple_restarts], and every value ever written
    to [restart_counts] is at most [max_simple_restarts + 1]. *)
Theorem C10_counter_bounds cfg (os : list tick_obs) :
  let N := max_simple_restarts cfg in
  let r := run_ticks cfg os (init_state cfg) in
  (forall s c, restart_counts r.1 !! s = Some c -> (c <= N)%nat) /\
  (forall evs, In evs r.2 -> forall s v, In (EvSetCount s v) evs -> (v <= S N)%nat).
Proof.
  intros N r. unfold r.
  generalize (init_state_bounded cfg). generalize (init_state cfg).
  induction os as [|o os IH]; intros st Hb; simpl.
  - split; [exact Hb | intros ? []].
  - destruct (tick_bounded cfg o st Hb) as [H1 H2].
    destruct (tick cfg o st) as [st1 ev]. simpl in *.
    destruct (IH st1 H1) as [H3 H4].
    destruct (run_ticks cfg os st1) as [st2 evss]. simpl in *.
    split; [exact H3|]. intros evs [<-|Hin]; [exact H2 | exact (H4 _ Hin)].
Qed.

(* ================================================================== *)
(** * Further properties of the code *)

(** A service whose descriptor has a [health_check_command] is probed by
    that command alone, with a 10 s timeout: the verdict is whether it exits
    0 ([false] if it raises), and [launchd_label], [systemd_unit] and [port]
    are not looked at. *)
Theorem check_service_health_custom_first (e : env) svcs s config cmd :
  py_lookup s svcs = Some config -> health_check_command config = Some cmd ->
  check_service_health e svcs s =
    (match e (CmdShell cmd) with Exited rc _ => Z.eqb rc 0 | Raised _ => false end,
     [EvRun (CmdShell cmd) (Some 10)]).
Proof.
  intros Hs Hc. unfold check_service_health. rewrite Hs, Hc.
  by destruct (e (CmdShell cmd)).
Qed.

(** The launchd check passes exactly when the first line of the
    [launchctl list] output that contains the label has at least two
    whitespace-separated fields, the first not "-" and the second "0"; the
    lines after it are not looked at. *)
Theorem launchd_scan_none label lines :
  launchd_scan label lines = None <->
  exists pre line post p0 p1 rest,
    lines = pre ++ line :: post /\
    Forall (fun l => PyStr.contains label l = false) pre /\
    PyStr.contains label line = true /\
    PyStr.split_ws line = p0 :: p1 :: rest /\ p0 <> "-" /\ p1 = "0".
Proof.
  split.
  - induction lines as [|line lines IH]; simpl; [discriminate|].
    destruct (PyStr.contains label line) eqn:Ec.
    + intros H. exists [], line, lines.
      destruct (PyStr.split_ws line) as [|p0 [|p1 rest]] eqn:Es; simpl in H;
        [discriminate| |].
      { by destruct (String.eqb p0 "-"). }
      destruct (String.eqb p0 "-") eqn:E0; [discriminate|].
      destruct (String.eqb p1 "0") eqn:E1; [|discriminate].
      exists p0, p1, rest. apply String.eqb_eq in E1. apply String.eqb_neq in E0.
      repeat split; auto.
    + intros H. destruct (IH H) as (pre & l & post & p0 & p1 & rest & -> & Hpre & Hl).
      exists (line :: pre), l, post, p0, p1, rest. simpl.
      split; [done|]. split; [by constructor|]. exact Hl.
  - intros (pre & line & post & p0 & p1 & rest & -> & Hpre & Hc & Hs & H0 & ->).
    induction Hpre as [|l pre Hl Hpre IH]; simpl.
    + rewrite Hc, Hs. simpl. apply String.eqb_neq in H0. by rewrite H0.
    + by rewrite Hl.
Qed.

Lemma launchd_scan_some label lines b :
  launchd_scan label lines = Some b -> b = false.
Proof.
  induction lines as [|line lines IH]; simpl; [congruence|].
  repeat case_match; congruence || auto.
Qed.

(** Without a custom command, a configured service is healthy exactly
    when every configured signal passes: the launchd check on the output of
    [launchctl list], [systemctl is-active] printing "active", and [lsof]
    printing "LISTEN".  The exit codes of these commands are ignored, and a
    command that raises makes the service unhealthy. *)
Theorem check_service_health_signals (e : env) svcs s config :
  py_lookup s svcs = Some config -> health_check_command config = None ->
  (check_service_health e svcs s).1 = true <->
  (forall l, launchd_label config = Some l ->
     exists rc out, e CmdLaunchctlList = Exited rc out /\
                    launchd_scan l (PyStr.splitlines out) = None) /\
  (forall u, systemd_unit config = Some u ->
     exists rc out, e (CmdSystemctlIsActive u) = Exited rc out /\
                    PyStr.strip out = "active") /\
  (forall p, port config = Some p ->
     exists rc out, e (CmdLsof p) = Exited rc out /\
                    PyStr.contains "LISTEN" out = true).
Proof.
  intros Hs Hc. unfold check_service_health. rewrite Hs, Hc.
  destruct (launchd_label config) as [l|] eqn:El;
  [destruct (e CmdLaunchctlList) as [rc1 out1|m1] eqn:E1;
   [destruct (launchd_scan l (PyStr.splitlines out1)) as [b1|] eqn:Esc;
    [pose proof (launchd_scan_some _ _ _ Esc); subst b1|]|]|];
  destruct (systemd_unit config) as [u|] eqn:Eu;
  try (destruct (e (CmdSystemctlIsActive u)) as [rc2 out2|m2] eqn:E2;
       [destruct (String.eqb (PyStr.strip out2) "active") eqn:Ea|]);
  destruct (port config) as [p|] eqn:Ep;
  try (destruct (e (CmdLsof p)) as [rc3 out3|m3] eqn:E3);
  simpl;
  repeat match goal with H : String.eqb _ _ = true |- _ => apply String.eqb_eq in H
                       | H : String.eqb _ _ = false |- _ => apply String.eqb_neq in H end;
  (split;
   [ intros Hb; (split; [|split]); intros ? [= <-];
     eauto; by subst
   | intros (H1 & H2 & H3);
     repeat match goal with
            | H : forall l, Some ?x = Some l -> _ |- _ => specialize (H x eq_refl)
            | H : exists _, _ |- _ => destruct H
            | H : _ /\ _ |- _ => destruct H
            end; simplify_eq; try congruence; try done ]).
Qed.

(** For a name that is not a key of the configured services, the probe
    and the restart return [false] and the diagnostics tool returns the
    "Unknown service" error with the configured names; none of them runs a
    command. *)
Theorem unknown_service_no_commands (e es : env) (u : Z) svcs s status ex rl :
  py_lookup s svcs = None ->
  check_service_health e svcs s = (false, []) /\
  simple_restart u e es svcs s = (false, []) /\
  get_service_info_tool e status ex rl svcs s = (InfoUnknown s (map fst svcs), []).
Proof.
  intros Hs. unfold check_service_health, simple_restart, get_service_info_tool.
  by rewrite Hs.
Qed.

(** With credentials set, the Telegram tool makes exactly one HTTP request,
    and its result is an error exactly when the request does not return an
    ok response. *)
Theorem send_telegram_tool_configured (tgc : telegram) (m : string) (http : http_outcome) :
  creds_set tgc = true ->
  (send_telegram_tool tgc m http).2 = [EvPost (PostTelegramTool m)] /\
  (is_error (send_telegram_tool tgc m http).1 = false <-> http = HttpOk).
Proof.
  intros Hc. unfold send_telegram_tool. rewrite Hc. simpl.
  split; [done|]. destruct http; simpl; split; congruence.
Qed.

Lemma run_stdout_checked_ok (e : env) c v :
  run_stdout_checked e c = POk v <-> exists out, e c = Exited 0 out /\ v = PyStr.strip out.
Proof.
  unfold run_stdout_checked, run_checked.
  destruct (e c) as [[|q|q] out|m]; simpl.
  - split; [intros [= <-]; eauto|intros (o & [= <-] & ->); done].
  - split; [intros [=]|intros (o & [=] & _)].
  - split; [intros [=]|intros (o & [=] & _)].
  - split; [intros [=]|intros (o & [=] & _)].
Qed.

Lemma check_git_updates_ok_iff repos ex (e : env) name :
  is_error (check_git_updates_tool repos ex e name) = false <->
  exists repo f b l r,
    py_lookup name repos = Some repo /\ ex (path repo) = true /\
    e (CmdGitFetch (path repo)) = Exited 0 f /\
    e (CmdGitAbbrevHead (path repo)) = Exited 0 b /\
    e (CmdGitRevParse (path repo) "HEAD") = Exited 0 l /\
    e (CmdGitRevParse (path repo) ("origin/" ++ branch_or_main repo)) = Exited 0 r /\
    (PyStr.strip l <> PyStr.strip r ->
       exists rc out,
         e (CmdGitLog (path repo) (PyStr.strip l ++ ".." ++ PyStr.strip r)) = Exited rc out).
Proof.
  unfold check_git_updates_tool.
  destruct (py_lookup name repos) as [repo|] eqn:Hr;
    [|split; [discriminate|intros (? & ? & ? & ? & ? & [=] & _)]].
  destruct (ex (path repo)) eqn:Hx; simpl;
    [|split; [discriminate|intros (? & ? & ? & ? & ? & [= <-] & ? & _); congruence]].
  destruct (run_stdout_checked e (CmdGitFetch (path repo))) as [f|m] eqn:E1; simpl;
  [destruct (run_stdout_checked e (CmdGitAbbrevHead (path repo))) as [b|m] eqn:E2; simpl;
   [destruct (run_stdout_checked e (CmdGitRevParse (path repo) "HEAD")) as [l|m] eqn:E3; simpl;
    [destruct (run_stdout_checked e (CmdGitRevParse (path repo) ("origin/" ++ branch_or_main repo))) as [r|m] eqn:E4; simpl|]|]|].
  - apply run_stdout_checked_ok in E1 as (fo & E1 & _).
    apply run_stdout_checked_ok in E2 as (bo & E2 & _).
    apply run_stdout_checked_ok in E3 as (lo & E3 & ->).
    apply run_stdout_checked_ok in E4 as (ro & E4 & ->).
    destruct (String.eqb (PyStr.strip lo) (PyStr.strip ro)) eqn:Eq; simpl.
    + split; [intros _|done].
      exists repo, fo, bo, lo, ro. repeat split; try done.
      intros Hne. apply String.eqb_eq in Eq. contradiction.
    + apply String.eqb_neq in Eq. unfold run_stdout.
      destruct (e (CmdGitLog (path repo) (PyStr.strip lo ++ ".." ++ PyStr.strip ro))) as [rc out|m] eqn:E5;
        simpl.
      * split; [intros _|done].
        exists repo, fo, bo, lo, ro. repeat split; try done. eauto.
      * split; [discriminate|].
        intros (repo' & ? & ? & l' & r' & [= <-] & _ & _ & _ & E3' & E4' & Hlog).
        rewrite E3 in E3'. rewrite E4 in E4'. simplify_eq.
        destruct (Hlog Eq) as (? & ? & ?). congruence.
  - split; [discriminate|].
    intros (repo' & ? & ? & ? & r' & [= <-] & _ & _ & _ & _ & E4' & _).
    assert (run_stdout_checked e (CmdGitRevParse (path repo) ("origin/" ++ branch_or_main repo)) = POk (PyStr.strip r')) as E4''
      by (apply run_stdout_checked_ok; eauto).
    congruence.
  - split; [discriminate|].
    intros (repo' & ? & ? & l' & ? & [= <-] & _ & _ & _ & E3' & _).
    assert (run_stdout_checked e (CmdGitRevParse (path repo) "HEAD") = POk (PyStr.strip l')) as E3''
      by (apply run_stdout_checked_ok; eauto).
    congruence.
  - split; [discriminate|].
    intros (repo' & ? & b' & ? & ? & [= <-] & _ & _ & E2' & _).
    assert (run_stdout_checked e (CmdGitAbbrevHead (path repo)) = POk (PyStr.strip b')) as E2''
      by (apply run_stdout_checked_ok; eauto).
    congruence.
  - split; [discriminate|].
    intros (repo' & f' & ? & ? & ? & [= <-] & _ & E1' & _).
    assert (run_stdout_checked e (CmdGitFetch (path repo)) = POk (PyStr.strip f')) as E1''
      by (apply run_stdout_checked_ok; eauto).
    congruence.
Qed.

(** The git tool succeeds exactly when the repository is configured, its
    path exists, [git fetch], [git rev-parse --abbrev-ref HEAD] and both
    [git rev-parse] calls exit 0, and, when the two revisions differ,
    [git log] does not raise (its exit code is not checked). *)
Theorem check_git_updates_tool_success repos ex (e : env) name :
  is_error (check_git_updates_tool repos ex e name) = false <->
  exists repo f b l r,
    py_lookup name repos = Some repo /\ ex (path repo) = true /\
    e (CmdGitFetch (path repo)) = Exited 0 f /\
    e (CmdGitAbbrevHead (path repo)) = Exited 0 b /\
    e (CmdGitRevParse (path repo) "HEAD") = Exited 0 l /\
    e (CmdGitRevParse (path repo) ("origin/" ++ branch_or_main repo)) = Exited 0 r /\
    (PyStr.strip l <> PyStr.strip r ->
       exists rc out,
         e (CmdGitLog (path repo) (PyStr.strip l ++ ".." ++ PyStr.strip r)) = Exited rc out).
Proof. apply check_git_updates_ok_iff. Qed.

(** A successful git tool result reports [has_updates] exactly when the
    stripped outputs of [git rev-parse HEAD] and [git rev-parse
    origin/<branch>] differ, gives both revisions cut to 7 characters, and
    has an empty commit list when they are equal. *)
Theorem check_git_updates_tool_report repos ex (e : env) name :
  is_error (check_git_updates_tool repos ex e name) = false ->
  exists repo l r br commits,
    py_lookup name repos = Some repo /\
    e (CmdGitRevParse (path repo) "HEAD") = Exited 0 l /\
    e (CmdGitRevParse (path repo) ("origin/" ++ branch_or_main repo)) = Exited 0 r /\
    content (check_git_updates_tool repos ex e name) =
      TCUpdateInfo name (path repo) br
        (negb (String.eqb (PyStr.strip l) (PyStr.strip r)))
        (substring 0 7 (PyStr.strip l)) (substring 0 7 (PyStr.strip r)) commits /\
    (PyStr.strip l = PyStr.strip r -> commits = "").
Proof.
  intros Hok. pose proof Hok as Hs.
  apply check_git_updates_ok_iff in Hs
    as (repo & f & b & l & r & Hr & Hx & E1 & E2 & E3 & E4 & _).
  revert Hok. unfold check_git_updates_tool. rewrite Hr, Hx. simpl.
  unfold run_stdout_checked, run_checked. rewrite E1, E2, E3, E4. simpl.
  destruct (String.eqb (PyStr.strip l) (PyStr.strip r)) eqn:Eq; simpl.
  - intros _. exists repo, l, r, (PyStr.strip b), "". rewrite Eq. repeat split; done.
  - unfold run_stdout.
    destruct (e (CmdGitLog (path repo) (PyStr.strip l ++ ".." ++ PyStr.strip r)))
      as [rc out|m]; simpl; [|discriminate].
    intros _. exists repo, l, r, (PyStr.strip b), (PyStr.strip out). rewrite Eq.
    repeat split; try done. intros Heq. apply String.eqb_neq in Eq. contradiction.
Qed.

Lemma lookup_dict_set_eq k v d : py_lookup k (dict_set k v d) = Some v.
Proof.
  induction d as [|[k0 v0] d IH]; simpl; [by rewrite String.eqb_refl|].
  destruct (String.eqb k k0) eqn:E; simpl; [by rewrite String.eqb_refl|by rewrite E].
Qed.

Lemma lookup_dict_set_ne k k' v d :
  k <> k' -> py_lookup k' (dict_set k v d) = py_lookup k' d.
Proof.
  intros Hne. induction d as [|[k0 v0] d IH]; simpl.
  - apply String.eqb_neq in Hne. rewrite String.eqb_sym. by rewrite Hne.
  - destruct (String.eqb k k0) eqn:E; simpl.
    + apply String.eqb_eq in E. subst.
      apply String.eqb_neq in Hne. rewrite String.eqb_sym. by rewrite Hne.
    + by rewrite IH.
Qed.

Lemma diag_scan_lookup label lines d k :
  k <> "pid" -> k <> "exit_status" ->
  py_lookup k (diag_scan label lines d).1 = py_lookup k d.
Proof.
  intros H1 H2. induction lines as [|line lines IH]; simpl; [done|].
  repeat case_match; simpl; auto; by rewrite ?lookup_dict_set_ne.
Qed.

Ltac pair_eqs :=
  repeat match goal with
         | H : (_, _) = (?a, ?b) |- _ => is_var a; is_var b; injection H as <- <-
         end.

Lemma diag_scan_lookup_eq label lines d d' o k :
  diag_scan label lines d = (d', o) -> k <> "pid" -> k <> "exit_status" ->
  py_lookup k d' = py_lookup k d.
Proof.
  intros H H1 H2. change d' with (d', o).1. rewrite <- H. by apply diag_scan_lookup.
Qed.

Lemma diag_scan_skip label pre rest d :
  Forall (fun l => PyStr.contains label l = false) pre ->
  diag_scan label (pre ++ rest) d = diag_scan label rest d.
Proof. induction 1 as [|l pre Hl _ IH]; simpl; [done|]. by rewrite Hl. Qed.

Ltac lookup_simpl :=
  repeat match goal with
  | |- context [py_lookup ?k (dict_set ?k ?v ?d)] => rewrite (lookup_dict_set_eq k v d)
  | |- context [py_lookup ?k' (dict_set ?k ?v ?d)] =>
      rewrite (lookup_dict_set_ne k k' v d) by discriminate
  | H : diag_scan _ _ _ = (?d', _) |- context [py_lookup ?k ?d'] =>
      rewrite (diag_scan_lookup_eq _ _ _ _ _ k H) by discriminate
  end.

(** Unlike the probe, [get_service_info] queries every configured source,
    whatever the earlier ones returned: [launchctl list], [systemctl status],
    [lsof], the log file (when it exists) and the custom command, in this
    order; only the custom command has a timeout (10 s). *)
Theorem get_service_info_calls (e : env) status ex rl svcs s config :
  py_lookup s svcs = Some config ->
  (get_service_info_tool e status ex rl svcs s).2 =
    match launchd_label config with Some _ => [ICall CmdLaunchctlList None] | None => [] end ++
    match systemd_unit config with Some u => [ISystemctlStatus u] | None => [] end ++
    match port config with Some p => [ICall (CmdLsof p) None] | None => [] end ++
    match log_file config with
    | Some f => if ex f then [IReadLog f] else []
    | None => []
    end ++
    match health_check_command config with
    | Some c => [ICall (CmdShell c) (Some 10)]
    | None => []
    end.
Proof.
  intros Hs. unfold get_service_info_tool. rewrite Hs.
  repeat case_match; pair_eqs; simplify_eq/=; done.
Qed.

(** When the first [launchctl list] line containing the label has a single
    field, [get_service_info] reports that field as "pid", no
    "exit_status", and the [IndexError] as "launchd_error": the dict is
    written before the exception. *)
Theorem get_service_info_partial_launchd_entry (e : env) status ex rl svcs s config
    label rc out pre line post p0 :
  py_lookup s svcs = Some config -> launchd_label config = Some label ->
  e CmdLaunchctlList = Exited rc out ->
  PyStr.splitlines out = pre ++ line :: post ->
  Forall (fun l => PyStr.contains label l = false) pre ->
  PyStr.contains label line = true -> PyStr.split_ws line = [p0] ->
  exists d, (get_service_info_tool e status ex rl svcs s).1 = InfoOk d /\
    py_lookup "pid" d = Some (JStr p0) /\ py_lookup "exit_status" d = None /\
    py_lookup "launchd_error" d = Some (JStr index_error).
Proof.
  intros Hs Hl He Hsp Hpre Hc Hw. unfold get_service_info_tool.
  rewrite Hs, Hl, He, Hsp, (diag_scan_skip _ _ _ _ Hpre). simpl.
  rewrite Hc, Hw. simpl.
  repeat case_match; pair_eqs; simplify_eq/=; eexists; (split; [reflexivity|]);
    lookup_simpl; done.
Qed.

(** For a configured log file, "recent_errors" is the concatenation of the
    last 30 lines of the file (all of them when it has fewer), "log_error"
    is the error of a failed read, and neither key is present when the
    file does not exist. *)
Theorem get_service_info_recent_logs (e : env) status ex rl svcs s config f :
  py_lookup s svcs = Some config -> log_file config = Some f ->
  exists d, (get_service_info_tool e status ex rl svcs s).1 = InfoOk d /\
    (ex f = false ->
       py_lookup "recent_errors" d = None /\ py_lookup "log_error" d = None) /\
    (forall lines, ex f = true -> rl f = POk lines ->
       exists older tail, lines = older ++ tail /\
         List.length tail = Nat.min 30 (List.length lines) /\
         py_lookup "recent_errors" d = Some (JStr (String.concat "" tail))) /\
    (forall m, ex f = true -> rl f = PExc m ->
       py_lookup "log_error" d = Some (JStr m) /\ py_lookup "recent_errors" d = None).
Proof.
  intros Hs Hf. unfold get_service_info_tool. rewrite Hs, Hf.
  destruct (ex f) eqn:Ex; [destruct (rl f) as [lines|m] eqn:Er|];
  repeat case_match; pair_eqs; simplify_eq/=; eexists; (split; [reflexivity|]);
  (split; [intros Hx; try discriminate; lookup_simpl; done|]);
  (split;
   [ intros lines' Hx Hr; try discriminate; try rewrite Er in Hr;
     (discriminate || injection Hr as <-);
     exists (firstn (List.length lines - 30) lines), (skipn (List.length lines - 30) lines);
     rewrite firstn_skipn, length_skipn; (split; [done|]); (split; [assert (Hm := Nat.min_spec 30 (List.length lines)); simpl in Hm; destruct Hm as [[? Hm]|[? Hm]]; rewrite Hm; lia|]);
     lookup_simpl; done
   |]);
  intros m' Hx Hr; try discriminate; try rewrite Er in Hr;
  (discriminate || injection Hr as <-); lookup_simpl; done.
Qed.

(** For a service checked by its port alone, the probe reports it healthy
    exactly when [get_service_info] reports "port_listening" as true. *)
Theorem get_service_info_port_agrees (e : env) status ex rl svcs s config p :
  py_lookup s svcs = Some config -> health_check_command config = None ->
  launchd_label config = None -> systemd_unit config = None -> port config = Some p ->
  exists d, (get_service_info_tool e status ex rl svcs s).1 = InfoOk d /\
    ((check_service_health e svcs s).1 = true <->
     py_lookup "port_listening" d = Some (JBool true)).
Proof.
  intros Hs Hc Hl Hu Hp. unfold get_service_info_tool, check_service_health.
  rewrite Hs, Hc, Hl, Hu, Hp. simpl.
  destruct (e (CmdLsof p)) as [rc out|m]; simpl;
  repeat case_match; pair_eqs; simplify_eq/=; eexists; (split; [reflexivity|]);
    lookup_simpl; simpl; split; congruence.
Qed.

Lemma service_pass_dom cfg o l rc :
  dom (service_pass cfg o l rc).1 = dom rc ∪ list_to_set l.
Proof.
  revert rc. induction l as [|s l IH]; intros rc; simpl; [set_solver|].
  destruct (service_step cfg o s (count_of rc s)) as [c' ev].
  specialize (IH (<[s:=c']> rc)).
  destruct (service_pass cfg o l (<[s:=c']> rc)) as [rc' evs]. simpl in *.
  rewrite IH, dom_insert_L. set_solver.
Qed.

(** The keys of [restart_counts] are always exactly the configured
    services. *)
Theorem restart_counts_keys cfg os :
  dom (restart_counts (run_ticks cfg os (init_state cfg)).1)
    = list_to_set (map fst (services cfg)).
Proof.
  assert (Hinit : dom (restart_counts (init_state cfg))
                  = list_to_set (map fst (services cfg)) :> gset string).
  { simpl. rewrite dom_list_to_map_L, map_map. done. }
  generalize (init_state cfg) Hinit. clear Hinit.
  induction os as [|o os IH]; intros st Hst; simpl; [done|].
  destruct (tick cfg o st) as [st1 ev] eqn:Ht.
  assert (Hst1 : dom (restart_counts st1) = list_to_set (map fst (services cfg))
                 :> gset string).
  { revert Ht. unfold tick.
    pose proof (service_pass_dom cfg o (map fst (services cfg)) (restart_counts st)) as Hd.
    destruct (service_pass cfg o (map fst (services cfg)) (restart_counts st)) as [rc' ev1].
    simpl in Hd. destruct (update_due _ _ _); intros [= <- _]; simpl;
      rewrite Hd, Hst; set_solver. }
  specialize (IH st1 Hst1). destruct (run_ticks cfg os st1) as [st2 evss]. exact IH.
Qed.

Definition is_git (c : command) : bool :=
  match c with
  | CmdGitFetch _ | CmdGitRevParse _ _ | CmdGitAbbrevHead _ | CmdGitLog _ _ => true
  | _ => false
  end.

(** Events that belong to the repository update check. *)
Definition repo_work (x : event) : Prop :=
  match x with
  | EvRun c _ => is_git c = true
  | EvDispatchUpdate _ | EvSetLastCheck _ => True
  | _ => False
  end.

Lemma check_service_health_no_git e svcs s :
  Forall (fun x => ~ repo_work x) (check_service_health e svcs s).2.
Proof.
  unfold check_service_health.
  repeat case_match; simplify_eq/=;
    repeat (apply Forall_app_2 || apply Forall_cons_2 || apply Forall_nil_2);
    simpl; try done.
Qed.

Lemma simple_restart_no_git u e es svcs s :
  Forall (fun x => ~ repo_work x) (simple_restart u e es svcs s).2.
Proof.
  unfold simple_restart.
  destruct (py_lookup s svcs) as [config|]; simpl; [|constructor].
  destruct (restart_method u config) as [c|] eqn:Hm; simpl;
    [|constructor; [simpl; tauto|constructor]].
  assert (Hc : is_git c = false).
  { unfold restart_method in Hm. repeat case_match; simplify_eq; done. }
  pose proof (check_service_health_no_git es svcs s) as Hh.
  destruct (run_checked e c); [destruct (check_service_health es svcs s)|]; simpl in *;
    repeat (apply Forall_app_2 || apply Forall_cons_2 || apply Forall_nil_2);
    simpl; rewrite ?Hc; try done; tauto.
Qed.

Lemma service_step_no_git cfg o s c :
  Forall (fun x => ~ repo_work x) (service_step cfg o s c).2.
Proof.
  unfold service_step.
  pose proof (check_service_health_no_git (probe_env o) (services cfg) s) as Hp.
  destruct (check_service_health (probe_env o) (services cfg) s) as [h pe]. simpl in Hp.
  pose proof (simple_restart_no_git (uid cfg) (restart_env o) (settled_env o)
                (services cfg) s) as Hr.
  destruct (simple_restart (uid cfg) (restart_env o) (settled_env o)
              (services cfg) s) as [ok re]. simpl in Hr.
  destruct (invoke_agent_shape (tg cfg) s (agent o s)) as (rest & -> & Ha).
  assert (Ha' : Forall (fun x => ~ repo_work x) rest).
  { eapply Forall_impl; [exact Ha|]. intros [] ?; simpl in *; tauto. }
  repeat case_match; simpl;
    repeat (apply Forall_app_2 || apply Forall_cons_2 || apply Forall_nil_2);
    try done; simpl; tauto.
Qed.

Lemma service_pass_no_git cfg o l rc :
  Forall (fun x => ~ repo_work x) (service_pass cfg o l rc).2.
Proof.
  revert rc. induction l as [|s l IH]; intros rc; simpl; [constructor|].
  pose proof (service_step_no_git cfg o s (count_of rc s)) as Hs.
  destruct (service_step cfg o s (count_of rc s)) as [c' ev].
  specialize (IH (<[s:=c']> rc)).
  destruct (service_pass cfg o l (<[s:=c']> rc)) as [rc' evs]. simpl in *.
  by apply Forall_app_2.
Qed.

(** With no repositories configured, no iteration runs a git command,
    dispatches the update agent or moves [last_update_check]. *)
Theorem no_repositories_no_git cfg os st :
  repositories cfg = [] ->
  last_update_check (run_ticks cfg os st).1 = last_update_check st /\
  forall evs, In evs (run_ticks cfg os st).2 -> Forall (fun x => ~ repo_work x) evs.
Proof.
  intros Hr. revert st. induction os as [|o os IH]; intros st; simpl; [done|].
  destruct (tick cfg o st) as [st1 ev] eqn:Ht.
  assert (Hst : last_update_check st1 = last_update_check st /\
                Forall (fun x => ~ repo_work x) ev).
  { revert Ht. unfold tick, update_due. rewrite Hr.
    pose proof (service_pass_no_git cfg o (map fst (services cfg)) (restart_counts st)) as Hs.
    destruct (service_pass cfg o (map fst (services cfg)) (restart_counts st)) as [rc' ev1].
    intros [= <- <-]. simpl in *. split; [done|].
    apply Forall_app_2; [done|]. constructor; [simpl; tauto|constructor]. }
  destruct (IH st1) as [IH1 IH2].
  destruct (run_ticks cfg os st1) as [st2 evss]. simpl in *.
  destruct Hst as [Hst1 Hst2]. split; [congruence|]. intros evs [<-|Hin]; [done|auto].
Qed.

(** The update check dispatches the update agent for a repository exactly
    when its path exists, [git fetch] does not raise (its exit code is not
    checked), both [git rev-parse] calls succeed and their stripped outputs
    differ; a missing path only logs and runs no git command. *)
Theorem repo_check_dispatch tgc name rcfg ro :
  (In (EvDispatchUpdate name) (repo_check tgc name rcfg ro) <->
   path_exists ro = true /\
   (exists rc out, git ro (CmdGitFetch (path rcfg)) = Exited rc out) /\
   exists l r,
     run_stdout (git ro) (CmdGitRevParse (path rcfg) "HEAD") = POk l /\
     run_stdout (git ro) (CmdGitRevParse (path rcfg) ("origin/" ++ branch_or_main rcfg))
       = POk r /\ l <> r) /\
  (path_exists ro = false -> repo_check tgc name rcfg ro = [EvLogRepoMissing name]).
Proof.
  unfold repo_check.
  destruct (path_exists ro) eqn:Hp; simpl;
    [|split; [split; [intros [[=]|[]] | intros [[=] _]] | done]].
  split; [|discriminate].
  destruct (git ro (CmdGitFetch (path rcfg))) as [rc out|m] eqn:Ef;
    [|split; [intros [[=]|[[=]|[]]] | intros (_ & (? & ? & [=]) & _)]].
  destruct (run_stdout (git ro) (CmdGitRevParse (path rcfg) "HEAD")) as [l|m] eqn:El;
    [|split; [intros [[=]|[[=]|[[=]|[]]]] | intros (_ & _ & ? & ? & [=] & _)]].
  destruct (run_stdout (git ro) (CmdGitRevParse (path rcfg) ("origin/" ++ branch_or_main rcfg)))
    as [r|m] eqn:Er;
    [|split; [intros [[=]|[[=]|[[=]|[[=]|[]]]]] | intros (_ & _ & ? & ? & _ & [=] & _)]].
  destruct (String.eqb l r) eqn:Eq; simpl.
  - split; [intros [[=]|[[=]|[[=]|[[=]|[]]]]]|].
    intros (_ & _ & l' & r' & [= <-] & [= <-] & Hne). apply String.eqb_eq in Eq. done.
  - apply String.eqb_neq in Eq. split.
    + intros _. split; [done|]. split; [eauto|]. exists l, r. done.
    + intros _. do 3 right. by left.
Qed.

(** When [config.json] is missing or cannot be read, the watchdog starts
    with the defaults, which have no services and no repositories, so
    [monitor_loop] returns at once, without a notification. *)
Theorem main_start_without_config (ex : bool) (read : pyres py_config)
    (et ec : option string) (u : Z) (http : http_outcome) :
  (ex = false \/ exists m, read = PExc m) ->
  (main_start ex read et ec u http).1.2 = [SLogStarted; SLogNothingConfigured] /\
  (main_start ex read et ec u http).2 = None.
Proof.
  intros Hc. unfold main_start, load_config.
  destruct Hc as [->|[m ->]]; [|destruct ex]; split; reflexivity.
Qed.

Definition is_startup_post (x : start_event) : Prop :=
  match x with SPostStartup _ _ => True | _ => False end.

(** When some service or repository is configured, the loop starts with
    them and the credentials; the startup message is posted, with a 5 s
    timeout, exactly when the credentials are set; it is logged as sent
    unless the request raises, even on a non-ok response. *)
Theorem monitor_start_notification c tgc u http :
  (conf_services c <> [] \/ conf_repositories c <> []) ->
  (exists lc, (monitor_start c tgc u http).2 = Some lc /\
     services lc = conf_services c /\ repositories lc = conf_repositories c /\
     tg lc = tgc) /\
  (forall ls t, In (SPostStartup ls t) (monitor_start c tgc u http).1 <->
     creds_set tgc = true /\ ls = startup_lines c /\ t = 5) /\
  (creds_set tgc = true ->
     (In SLogStartupSent (monitor_start c tgc u http).1 <-> forall m, http <> HttpRaised m)).
Proof.
  intros Hne. unfold monitor_start.
  destruct (conf_services c) as [|sv svs] eqn:Es;
  destruct (conf_repositories c) as [|rp rps] eqn:Er;
    [destruct Hne; congruence| | |];
  (split; [eexists; split; [reflexivity|]; simpl; done|]);
  destruct (creds_set tgc) eqn:Ec; simpl;
  (split;
   [ intros ls t; split;
     [ intros Hin; repeat (destruct Hin as [Hin|Hin]; try discriminate);
       try (injection Hin as <- <-; done);
       repeat (destruct Hin as [Hin|Hin]; try discriminate); try contradiction;
       destruct http; simpl in Hin;
       repeat (destruct Hin as [Hin|Hin]; try discriminate); contradiction
     | intros (? & -> & ->); try discriminate; tauto ]
   | intros Hc; try discriminate ]);
  destruct http; simpl; split; intros H;
    repeat (destruct H as [H|H]; try discriminate); try contradiction;
    try (intros ? [=]); try done; try (exfalso; by apply (H err));
    tauto.
Qed.

(** The names listed by the message, in order. *)
Definition line_items (ls : list start_line) : list string :=
  flat_map (fun l => match l with SLItem n => [n] | _ => [] end) ls.

Lemma line_items_map {V} (l : list (string * V)) :
  line_items (map (fun p => SLItem p.1) l) = map fst l.
Proof. induction l as [|[k v] l IH]; simpl; [done|]. by rewrite IH. Qed.

(** The startup message lists the configured services and then the
    configured repositories, each in the order of the configuration. *)
Theorem startup_lines_items c :
  line_items (startup_lines c) = map fst (conf_services c) ++ map fst (conf_repositories c).
Proof.
  unfold startup_lines, line_items.
  destruct (conf_services c) as [|sv svs]; destruct (conf_repositories c) as [|rp rps];
    rewrite ?flat_map_app; simpl; rewrite ?flat_map_app; simpl;
    fold line_items; rewrite ?line_items_map; simpl;
    rewrite ?app_nil_r; try done.
  all: fold (line_items (map (fun p : string * service_config => SLItem p.1) svs)).
  all: try fold (line_items (map (fun p : string * repo_config => SLItem p.1) rps)).
  all: rewrite ?line_items_map; simpl; rewrite ?app_nil_r; done.
Qed.

Lemma invoke_agent_no_post tgc s run :
  creds_set tgc = false -> Forall (fun x => ~ is_post x) (invoke_agent tgc s run).
Proof.
  intros Hc. apply List.Forall_forall. intros x Hx Hp.
  destruct (invoke_agent_posts _ _ _ _ Hx Hp) as (_ & _ & ? & _). congruence.
Qed.

Lemma invoke_update_agent_no_post tgc r run :
  creds_set tgc = false -> Forall (fun x => ~ is_post x) (invoke_update_agent tgc r run).
Proof.
  intros Hc. apply List.Forall_forall. intros x Hx Hp.
  destruct (invoke_update_agent_posts _ _ _ _ Hx Hp) as (_ & _ & _ & ? & _). congruence.
Qed.

Lemma service_step_no_post cfg o s c :
  creds_set (tg cfg) = false -> Forall (fun x => ~ is_post x) (service_step cfg o s c).2.
Proof.
  intros Hc. unfold service_step.
  pose proof (check_service_health_runs (probe_env o) (services cfg) s) as Hp.
  destruct (check_service_health (probe_env o) (services cfg) s) as [h pe]. simpl in Hp.
  pose proof (simple_restart_side (uid cfg) (restart_env o) (settled_env o)
                (services cfg) s) as Hr.
  destruct (simple_restart (uid cfg) (restart_env o) (settled_env o)
              (services cfg) s) as [ok re]. simpl in Hr.
  pose proof (invoke_agent_no_post (tg cfg) s (agent o s) Hc) as Ha.
  assert (Hp' : Forall (fun x => ~ is_post x) pe).
  { eapply Forall_impl; [exact Hp|]. intros [] ?; simpl in *; tauto. }
  assert (Hr' : Forall (fun x => ~ is_post x) re).
  { eapply Forall_impl; [exact Hr|]. intros [] ?; simpl in *; tauto. }
  repeat case_match;
    repeat (assumption || apply Forall_app_2 || apply Forall_cons_2 || apply Forall_nil_2);
    try assumption; simpl; tauto.
Qed.

Lemma tick_no_post cfg o st :
  creds_set (tg cfg) = false -> Forall (fun x => ~ is_post x) (tick cfg o st).2.
Proof.
  intros Hc. unfold tick.
  assert (Hs : forall l rc, Forall (fun x => ~ is_post x) (service_pass cfg o l rc).2).
  { induction l as [|s l IH]; intros rc; simpl; [constructor|].
    pose proof (service_step_no_post cfg o s (count_of rc s) Hc) as H1.
    destruct (service_step cfg o s (count_of rc s)) as [c' ev].
    specialize (IH (<[s:=c']> rc)).
    destruct (service_pass cfg o l (<[s:=c']> rc)) as [rc' evs]. simpl in *.
    by apply Forall_app_2. }
  assert (Hrp : Forall (fun x => ~ is_post x) (repo_pass cfg o)).
  { unfold repo_pass. induction (repositories cfg) as [|[name rcfg] rs IH]; simpl;
      [constructor|].
    apply Forall_app_2; [|exact IH].
    unfold repo_check.
    pose proof (invoke_update_agent_no_post (tg cfg) name (update_agent (repo o name)) Hc).
    repeat case_match; simpl;
      repeat (assumption || apply Forall_app_2 || apply Forall_cons_2 || apply Forall_nil_2);
      try assumption; simpl; tauto. }
  specialize (Hs (map fst (services cfg)) (restart_counts st)).
  destruct (service_pass cfg o (map fst (services cfg)) (restart_counts st)) as [rc' ev1].
  simpl in Hs. destruct (update_due _ _ _); simpl;
    repeat (assumption || apply Forall_app_2 || apply Forall_cons_2 || apply Forall_nil_2);
    try assumption; simpl; tauto.
Qed.

Lemma run_ticks_no_post cfg os st :
  creds_set (tg cfg) = false ->
  forall evs, In evs (run_ticks cfg os st).2 -> Forall (fun x => ~ is_post x) evs.
Proof.
  intros Hc. revert st. induction os as [|o os IH]; intros st; simpl; [done|].
  pose proof (tick_no_post cfg o st Hc) as Ht.
  destruct (tick cfg o st) as [st1 ev].
  specialize (IH st1). destruct (run_ticks cfg os st1) as [st2 evss].
  simpl in *. intros evs [<-|Hin]; auto.
Qed.

(** When the environment sets [TELEGRAM_BOT_TOKEN] to the empty string,
    whatever [config.json] holds, the watchdog makes no HTTP request: no
    startup message and no fallback notification in any iteration. *)
Theorem empty_env_token_no_http ex read ec u http os :
  Forall (fun x => ~ is_startup_post x) (main_start ex read (Some "") ec u http).1.2 /\
  forall lc, (main_start ex read (Some "") ec u http).2 = Some lc ->
  forall evs, In evs (run_ticks lc os (init_state lc)).2 -> Forall (fun x => ~ is_post x) evs.
Proof.
  unfold main_start.
  destruct (load_config ex read (Some "") ec) as [[c tgc] lev] eqn:Hl.
  assert (Hc : creds_set tgc = false).
  { revert Hl. unfold load_config. destruct ex; [destruct read|];
      intros [= _ <- _]; reflexivity. }
  unfold monitor_start. rewrite Hc.
  destruct (conf_services c), (conf_repositories c); simpl;
    (split;
     [ repeat (apply Forall_app_2 || apply Forall_cons_2 || apply Forall_nil_2);
       simpl; tauto
     | ]);
    try discriminate;
    intros lc [= <-]; apply run_ticks_no_post; exact Hc.
Qed.

(** ** Concrete worlds for the extra properties *)

Definition nl : string := String (Ascii.ascii_of_nat 10) EmptyString.

(** A service with every key of a descriptor. *)
Definition svc_full : service_config :=
  {| launchd_label := Some "com.example.svc"; systemd_unit := Some "svc.service";
     port := Some 8080; log_file := Some "/var/log/svc.log";
     health_check_command := Some "curl -f localhost:8080";
     restart_command := None |}.

(** The same service without the custom health check. *)
Definition svc_probe : service_config :=
  {| launchd_label := Some "com.example.svc"; systemd_unit := Some "svc.service";
     port := Some 8080; log_file := None; health_check_command := None;
     restart_command := None |}.

(** A host where the service runs and listens. *)
Definition env_up : env := fun c =>
  match c with
  | CmdLaunchctlList => Exited 0 ("PID Status Label" ++ nl ++ "123 0 com.example.svc")
  | CmdSystemctlIsActive _ => Exited 0 "active"
  | CmdLsof _ => Exited 0 "node 123 LISTEN"
  | CmdShell _ => Exited 0 "ok"
  | _ => Exited 1 ""
  end.

(** [launchctl list] prints the label alone on its line. *)
Definition env_label_only : env := fun c =>
  match c with
  | CmdLaunchctlList => Exited 0 ("PID Status Label" ++ nl ++ "com.example.svc")
  | _ => env_up c
  end.

Definition status_active : string -> proc_outcome := fun _ => Exited 0 "active (running)".
Definition all_exist : string -> bool := fun _ => true.
Definition log_lines : string -> pyres (list string) :=
  fun _ => POk ["started"; "error: port in use"; "stopped"].

(** A repository whose [origin/main] is ahead of [HEAD]. *)
Definition git_behind : env := fun c =>
  match c with
  | CmdGitFetch _ => Exited 0 ""
  | CmdGitAbbrevHead _ => Exited 0 "main"
  | CmdGitRevParse _ "HEAD" => Exited 0 "abc1234567"
  | CmdGitRevParse _ _ => Exited 0 "def7654321"
  | CmdGitLog _ _ => Exited 0 "def7654 fix crash"
  | _ => Exited 1 ""
  end.

(** A [config.json] with one service. *)
Definition web_config : py_config :=
  {| cfg_check_interval := None; cfg_max_simple_restarts := None;
     cfg_update_check_interval := None;
     cfg_services := Some [("web", svc_port_only)];
     cfg_repositories := None;
     cfg_telegram_bot_token := Some "123:abc"; cfg_telegram_chat_id := Some "42" |}.

Lemma check_service_health_custom_first_witness :
  check_service_health env_up [("svc", svc_full)] "svc"
    = (true, [EvRun (CmdShell "curl -f localhost:8080") (Some 10)]).
Proof.
  apply (check_service_health_custom_first env_up [("svc", svc_full)] "svc" svc_full
           "curl -f localhost:8080"); reflexivity.
Defined.

Lemma check_service_health_signals_witness :
  (check_service_health env_up [("svc", svc_probe)] "svc").1 = true /\
  (forall u, systemd_unit svc_probe = Some u ->
     exists rc out, env_up (CmdSystemctlIsActive u) = Exited rc out /\
                    PyStr.strip out = "active").
Proof.
  split; [reflexivity|].
  apply (proj1 (proj2 (proj1 (check_service_health_signals env_up [("svc", svc_probe)] "svc"
                                svc_probe eq_refl eq_refl) eq_refl))).
Defined.

Lemma unknown_service_no_commands_witness :
  check_service_health env_up [("svc", svc_full)] "db" = (false, []) /\
  simple_restart 501 env_up env_up [("svc", svc_full)] "db" = (false, []) /\
  get_service_info_tool env_up status_active all_exist log_lines [("svc", svc_full)] "db"
    = (InfoUnknown "db" ["svc"], []).
Proof.
  apply (unknown_service_no_commands env_up env_up 501 [("svc", svc_full)] "db"
           status_active all_exist log_lines); reflexivity.
Defined.

Lemma send_telegram_tool_configured_witness :
  (send_telegram_tool tg_on "hello" HttpOk).2 = [EvPost (PostTelegramTool "hello")] /\
  is_error (send_telegram_tool tg_on "hello" HttpOk).1 = false.
Proof.
  destruct (send_telegram_tool_configured tg_on "hello" HttpOk eq_refl) as [H1 H2].
  split; [exact H1 | apply H2; reflexivity].
Defined.

Lemma check_git_updates_tool_report_witness :
  exists repo l r br commits,
    py_lookup "app" [("app", app_repo)] = Some repo /\
    git_behind (CmdGitRevParse (path repo) "HEAD") = Exited 0 l /\
    git_behind (CmdGitRevParse (path repo) ("origin/" ++ branch_or_main repo)) = Exited 0 r /\
    content (check_git_updates_tool [("app", app_repo)] all_exist git_behind "app") =
      TCUpdateInfo "app" (path repo) br
        (negb (String.eqb (PyStr.strip l) (PyStr.strip r)))
        (substring 0 7 (PyStr.strip l)) (substring 0 7 (PyStr.strip r)) commits /\
    (PyStr.strip l = PyStr.strip r -> commits = "").
Proof.
  apply (check_git_updates_tool_report [("app", app_repo)] all_exist git_behind "app").
  reflexivity.
Defined.

Lemma get_service_info_calls_witness :
  (get_service_info_tool env_up status_active all_exist log_lines [("svc", svc_full)] "svc").2
  = [ICall CmdLaunchctlList None; ISystemctlStatus "svc.service";
     ICall (CmdLsof 8080) None; IReadLog "/var/log/svc.log";
     ICall (CmdShell "curl -f localhost:8080") (Some 10)].
Proof.
  apply (get_service_info_calls env_up status_active all_exist log_lines [("svc", svc_full)]
           "svc" svc_full).
  reflexivity.
Defined.

Lemma get_service_info_partial_launchd_entry_witness :
  exists d, (get_service_info_tool env_label_only status_active all_exist log_lines
               [("svc", svc_full)] "svc").1 = InfoOk d /\
    py_lookup "pid" d = Some (JStr "com.example.svc") /\
    py_lookup "exit_status" d = None /\
    py_lookup "launchd_error" d = Some (JStr index_error).
Proof.
  apply (get_service_info_partial_launchd_entry env_label_only status_active all_exist
           log_lines [("svc", svc_full)] "svc" svc_full "com.example.svc" 0
           ("PID Status Label" ++ nl ++ "com.example.svc") ["PID Status Label"]
           "com.example.svc" []); try reflexivity.
  constructor; [reflexivity | constructor].
Defined.

Lemma get_service_info_recent_logs_witness :
  exists d, (get_service_info_tool env_up status_active all_exist log_lines
               [("svc", svc_full)] "svc").1 = InfoOk d /\
    (all_exist "/var/log/svc.log" = false ->
       py_lookup "recent_errors" d = None /\ py_lookup "log_error" d = None) /\
    (forall lines, all_exist "/var/log/svc.log" = true ->
       log_lines "/var/log/svc.log" = POk lines ->
       exists older tail, lines = older ++ tail /\
         List.length tail = Nat.min 30 (List.length lines) /\
         py_lookup "recent_errors" d = Some (JStr (String.concat "" tail))) /\
    (forall m, all_exist "/var/log/svc.log" = true -> log_lines "/var/log/svc.log" = PExc m ->
       py_lookup "log_error" d = Some (JStr m) /\ py_lookup "recent_errors" d = None).
Proof.
  apply (get_service_info_recent_logs env_up status_active all_exist log_lines
           [("svc", svc_full)] "svc" svc_full "/var/log/svc.log"); reflexivity.
Defined.

Lemma get_service_info_port_agrees_witness :
  exists d, (get_service_info_tool env_up status_active all_exist log_lines
               [("web", svc_port_only)] "web").1 = InfoOk d /\
    ((check_service_health env_up [("web", svc_port_only)] "web").1 = true <->
     py_lookup "port_listening" d = Some (JBool true)).
Proof.
  apply (get_service_info_port_agrees env_up status_active all_exist log_lines
           [("web", svc_port_only)] "web" svc_port_only 8080); reflexivity.
Defined.

Lemma no_repositories_no_git_witness :
  last_update_check (run_ticks web_cfg [web_down; web_down] (init_state web_cfg)).1
    = last_update_check (init_state web_cfg) /\
  forall evs, In evs (run_ticks web_cfg [web_down; web_down] (init_state web_cfg)).2 ->
    Forall (fun x => ~ repo_work x) evs.
Proof.
  apply (no_repositories_no_git web_cfg [web_down; web_down] (init_state web_cfg)).
  reflexivity.
Defined.

Lemma main_start_without_config_witness :
  (main_start false (POk web_config) None None 501 HttpOk).1.2
    = [SLogStarted; SLogNothingConfigured] /\
  (main_start false (POk web_config) None None 501 HttpOk).2 = None.
Proof.
  apply (main_start_without_config false (POk web_config) None None 501 HttpOk).
  left. reflexivity.
Defined.

Lemma monitor_start_notification_witness :
  (exists lc, (monitor_start web_config tg_on 501 HttpOk).2 = Some lc /\
     services lc = conf_services web_config /\
     repositories lc = conf_repositories web_config /\ tg lc = tg_on) /\
  (forall ls t, In (SPostStartup ls t) (monitor_start web_config tg_on 501 HttpOk).1 <->
     creds_set tg_on = true /\ ls = startup_lines web_config /\ t = 5) /\
  (creds_set tg_on = true ->
     (In SLogStartupSent (monitor_start web_config tg_on 501 HttpOk).1 <->
      forall m, HttpOk <> HttpRaised m)).
Proof.
  apply (monitor_start_notification web_config tg_on 501 HttpOk).
  left. discriminate.
Defined.
